(** * CRAutosScrape: field extractors, data cleaner, data validator and
      ETL pipeline, embedded from the Python sources.

    - [src/scrapers/utils/parsers.py]            : [VehicleParser]
    - [src/etl/transformers/data_cleaner.py]     : [DataCleaner]
    - [src/etl/transformers/data_validator.py]   : [DataValidator]
    - [src/etl/pipelines/vehicle_etl_pipeline.py]: [VehicleETLPipeline]
    - [src/etl/loaders/clean_data_loader.py]     : [CleanDataLoader]

    Conventions of the embedding.

    - A Python [str] is a [string] whose characters are read as the code
      points 0..255 (ASCII and the Latin-1 supplement, which holds the
      Spanish letters and the colon sign U+00A2 the sources mention).
    - A numeric pandas series (int64 or float64) is a list of binary64
      floats; its null is NaN.  An object series of text is a list of
      [option string]; its null is [None].
    - A Python exception is a value of [exn]; code that can raise returns a
      [result]. *)

From Stdlib Require Import ZArith NArith String Ascii Bool Floats.
From stdpp Require Import base option list strings gmap pretty.

Local Open Scope string_scope.

(** ** Exceptions *)

Inductive exn :=
| ValueError
| TypeError
| AttributeError
| KeyError (key : string)
| DatabaseError (msg : string).

Inductive result (A : Type) :=
| Ok (a : A)
| Raise (e : exn).
Arguments Ok {A} a.
Arguments Raise {A} e.

Definition rbind {A B} (r : result A) (f : A → result B) : result B :=
  match r with
  | Ok a => f a
  | Raise e => Raise e
  end.

(** ** Python text primitives *)

Module PyStr.

Definition code (c : ascii) : N := N_of_ascii c.
Definition chr (n : N) : ascii := ascii_of_N n.

Definition between (lo hi : N) (c : ascii) : bool :=
  ((lo <=? code c) && (code c <=? hi))%N.

Definition is_char (d c : ascii) : bool := (code c =? code d)%N.

(** [str.isspace] / the class [\s] on code points below 256. *)
Definition isspace (c : ascii) : bool :=
  between 9 13 c || between 28 32 c || (code c =? 133)%N || (code c =? 160)%N.

(** The class [\d]: decimal digits. *)
Definition isdigit (c : ascii) : bool := between 48 57 c.

Definition isupper (c : ascii) : bool :=
  between 65 90 c || (between 192 222 c && negb (code c =? 215)%N).

(** Lower-case letters that have an upper-case partner below 256. *)
Definition has_upper (c : ascii) : bool :=
  between 97 122 c || (between 224 254 c && negb (code c =? 247)%N).

(** Cased characters (the ones [str.title] treats as part of a word). *)
Definition iscased (c : ascii) : bool :=
  isupper c || has_upper c
  || (code c =? 170)%N || (code c =? 181)%N || (code c =? 186)%N
  || (code c =? 223)%N || (code c =? 255)%N.

(** The class [\w]: alphanumerics and the underscore. *)
Definition isword (c : ascii) : bool :=
  iscased c || isdigit c || (code c =? 95)%N
  || (code c =? 178)%N || (code c =? 179)%N || (code c =? 185)%N
  || between 188 190 c.

Definition lower_char (c : ascii) : ascii :=
  if isupper c then chr (code c + 32) else c.

(** The three characters whose upper-case form lies outside this range
    (223, 255 and 181) are left as they are. *)
Definition upper_char (c : ascii) : ascii :=
  if has_upper c then chr (code c - 32) else c.

Fixpoint map_chars (f : ascii → ascii) (s : string) : string :=
  match s with
  | EmptyString => EmptyString
  | String c t => String (f c) (map_chars f t)
  end.

Definition lower : string → string := map_chars lower_char.
Definition upper : string → string := map_chars upper_char.

(** [str.title]: a cased character is upper-cased when the character
    before it is not cased, lower-cased otherwise. *)
Fixpoint title_from (prev_cased : bool) (s : string) : string :=
  match s with
  | EmptyString => EmptyString
  | String c t =>
      String (if prev_cased then lower_char c else upper_char c)
             (title_from (iscased c) t)
  end.

Definition title : string → string := title_from false.

Fixpoint lstrip (s : string) : string :=
  match s with
  | EmptyString => EmptyString
  | String c t => if isspace c then lstrip t else s
  end.

Fixpoint rstrip (s : string) : string :=
  match s with
  | EmptyString => EmptyString
  | String c t =>
      match rstrip t with
      | EmptyString => if isspace c then EmptyString else String c EmptyString
      | t' => String c t'
      end
  end.

Definition strip (s : string) : string := rstrip (lstrip s).

(** [s.replace(old, new)] for a non-empty [old]: left to right, without
    overlap.  [skip] counts the characters of a match still to drop. *)
Fixpoint replace_from (old new : string) (skip : nat) (s : string) : string :=
  match s with
  | EmptyString => EmptyString
  | String c t =>
      match skip with
      | S k => replace_from old new k t
      | O =>
          if String.prefix old s
          then new ++ replace_from old new (String.length old - 1) t
          else String c (replace_from old new 0 t)
      end
  end.

Definition replace (old new s : string) : string :=
  match old with
  | EmptyString => s
  | _ => replace_from old new 0 s
  end.

Fixpoint filter_chars (p : ascii → bool) (s : string) : string :=
  match s with
  | EmptyString => EmptyString
  | String c t => if p c then String c (filter_chars p t) else filter_chars p t
  end.

Fixpoint all_chars (p : ascii → bool) (s : string) : bool :=
  match s with
  | EmptyString => true
  | String c t => p c && all_chars p t
  end.

Fixpoint digits_value (acc : Z) (s : string) : Z :=
  match s with
  | EmptyString => acc
  | String c t => digits_value (10 * acc + Z.of_N (code c - 48)) t
  end.

(** [int(s)] on the strings the extractors pass to it: a run of decimal
    digits gives its value, anything else (the empty string included)
    raises [ValueError]. *)
Definition int (s : string) : result Z :=
  match s with
  | EmptyString => Raise ValueError
  | _ => if all_chars isdigit s then Ok (digits_value 0 s) else Raise ValueError
  end.

End PyStr.

(** ** Regular expressions as [re.search] runs them

    The patterns of [parsers.py] use literals, character classes, greedy
    repetition of one class, optional parts, one alternation, the word
    boundary and one capturing group.  The matcher backtracks as Python's
    does: it tries the greedy choice first and falls back when the rest of
    the pattern fails. *)

Module Re.
Import PyStr.

Inductive regex :=
| Chr (p : ascii → bool)      (* one character of a class; a literal *)
| Many (p : ascii → bool)     (* [c*], greedy *)
| Many1 (p : ascii → bool)    (* [c+], greedy *)
| Opt (r : regex)             (* [r?], greedy *)
| Cat (r1 r2 : regex)
| Alt (r1 r2 : regex)
| Group (r : regex)           (* the capturing group 1 *)
| WordB.                      (* [\b] *)

Record rmatch := { group0 : string; group1 : option string; after : string }.

Section Matcher.
Context {R : Type}.

(** A continuation receives the character before the position, the
    rest of the text and the text captured by group 1 so far. *)
Definition cont := option ascii → string → option string → option R.

Fixpoint many (p : ascii → bool) (prev : option ascii) (s : string)
    (g : option string) (k : cont) : option R :=
  match s with
  | String c t =>
      if p c then
        match many p (Some c) t g k with
        | Some x => Some x
        | None => k prev s g
        end
      else k prev s g
  | EmptyString => k prev s g
  end.

Definition at_boundary (prev : option ascii) (s : string) : bool :=
  let left := match prev with Some c => isword c | None => false end in
  let right := match s with String c _ => isword c | EmptyString => false end in
  xorb left right.

Fixpoint run (r : regex) (prev : option ascii) (s : string)
    (g : option string) (k : cont) : option R :=
  match r with
  | Chr p =>
      match s with
      | String c t => if p c then k (Some c) t g else None
      | EmptyString => None
      end
  | Many p => many p prev s g k
  | Many1 p =>
      match s with
      | String c t => if p c then many p (Some c) t g k else None
      | EmptyString => None
      end
  | Opt r1 =>
      match run r1 prev s g k with
      | Some x => Some x
      | None => k prev s g
      end
  | Cat r1 r2 => run r1 prev s g (λ prev' s' g', run r2 prev' s' g' k)
  | Alt r1 r2 =>
      match run r1 prev s g k with
      | Some x => Some x
      | None => run r2 prev s g k
      end
  | Group r1 =>
      run r1 prev s g
        (λ prev' s' _,
           k prev' s' (Some (substring 0 (String.length s - String.length s') s)))
  | WordB => if at_boundary prev s then k prev s g else None
  end.
End Matcher.

(** A match that starts exactly at the current position. *)
Definition match_here (r : regex) (prev : option ascii) (s : string) : option rmatch :=
  run r prev s None
    (λ _ s' g,
       Some {| group0 := substring 0 (String.length s - String.length s') s;
               group1 := g; after := s' |}).

(** [re.search]: the leftmost position at which the pattern matches. *)
Fixpoint search_from (r : regex) (prev : option ascii) (s : string) : option rmatch :=
  match match_here r prev s with
  | Some m => Some m
  | None =>
      match s with
      | String c t => search_from r (Some c) t
      | EmptyString => None
      end
  end.

Definition search (r : regex) (s : string) : option rmatch := search_from r None s.

Definition last_char (prev : option ascii) (s : string) : option ascii :=
  match String.length s with
  | O => prev
  | S n => String.get n s
  end.

(** [re.findall] for a pattern without groups used alone: the matched
    texts, scanning on from the end of each match.  Every match of the
    phone patterns is non-empty, so [fuel] = length of the text + 1 is
    never exhausted. *)
Fixpoint findall_from (fuel : nat) (r : regex) (prev : option ascii) (s : string)
    : list string :=
  match fuel with
  | O => []
  | S fuel' =>
      match match_here r prev s with
      | Some m =>
          match group0 m with
          | EmptyString =>
              match s with
              | String c t => EmptyString :: findall_from fuel' r (Some c) t
              | EmptyString => [EmptyString]
              end
          | String _ _ =>
              group0 m :: findall_from fuel' r (last_char prev (group0 m)) (after m)
          end
      | None =>
          match s with
          | String c t => findall_from fuel' r (Some c) t
          | EmptyString => []
          end
      end
  end.

Definition findall (r : regex) (s : string) : list string :=
  findall_from (S (String.length s)) r None s.

(** Pattern building blocks. *)
Definition lit (c : ascii) : regex := Chr (is_char c).

Fixpoint lits (s : string) : regex :=
  match s with
  | EmptyString => Many (λ _, false)
  | String c EmptyString => lit c
  | String c t => Cat (lit c) (lits t)
  end.

Fixpoint times (n : nat) (r : regex) : regex :=
  match n with
  | O => Many (λ _, false)
  | S O => r
  | S n' => Cat r (times n' r)
  end.

Definition digit : regex := Chr isdigit.
End Re.

(** ** [VehicleParser] (src/scrapers/utils/parsers.py) *)

Module VehicleParser.
Import PyStr Re.

(** The colon sign, U+00A2. *)
Definition colon_sign : ascii := "162"%char.

(** [[\d,\.]+] *)
Definition price_token (c : ascii) : bool :=
  isdigit c || is_char "," c || is_char "." c.

(** [¢\s*([\d,\.]+)] *)
Definition re_price_colones : regex :=
  Cat (lit colon_sign) (Cat (Many isspace) (Group (Many1 price_token))).

(** [\$\s*([\d,\.]+)] *)
Definition re_price_usd : regex :=
  Cat (lit "$") (Cat (Many isspace) (Group (Many1 price_token))).

(** [s.replace(old, '')] *)
Definition remove (old s : string) : string := replace old EmptyString s.

Definition group1_text (m : rmatch) : string :=
  match group1 m with Some g => g | None => EmptyString end.

Definition extract_price_colones (text : string) : result (option Z) :=
  match search re_price_colones (remove "," text) with
  | Some m => rbind (int (remove "," (remove "." (group1_text m)))) (λ n, Ok (Some n))
  | None => Ok None
  end.

Definition extract_price_usd (text : string) : result (option Z) :=
  match search re_price_usd (remove "," text) with
  | Some m => rbind (int (remove "," (remove "." (group1_text m)))) (λ n, Ok (Some n))
  | None => Ok None
  end.

(** [\b(19|20)\d{2}\b] *)
Definition re_year : regex :=
  Cat WordB (Cat (Group (Alt (lits "19") (lits "20"))) (Cat (times 2 digit) WordB)).

Definition extract_year (text : string) : result (option Z) :=
  match search re_year text with
  | Some m => rbind (int (group0 m)) (λ n, Ok (Some n))
  | None => Ok None
  end.

Definition space_or_comma (c : ascii) : bool := isspace c || is_char "," c.

(** [(\d+)[\s,]*k?m?s?\s*km] *)
Definition re_mileage_km : regex :=
  Cat (Group (Many1 isdigit))
    (Cat (Many space_or_comma)
       (Cat (Opt (lit "k")) (Cat (Opt (lit "m")) (Cat (Opt (lit "s"))
          (Cat (Many isspace) (lits "km")))))).

(** [(\d+)[\s,]*mil] *)
Definition re_mileage_mil : regex :=
  Cat (Group (Many1 isdigit)) (Cat (Many space_or_comma) (lits "mil")).

Definition extract_mileage (text : string) : result (option Z) :=
  match search re_mileage_km (lower text) with
  | Some m => rbind (int (group1_text m)) (λ n, Ok (Some (n * 1000)%Z))
  | None =>
      match search re_mileage_mil (lower text) with
      | Some m => rbind (int (group1_text m)) (λ n, Ok (Some (n * 1000)%Z))
      | None => Ok None
      end
  end.

(** [(\d+)\s*c[c|m]]: the class holds the three characters c, | and m. *)
Definition re_engine_cc : regex :=
  Cat (Group (Many1 isdigit))
    (Cat (Many isspace)
       (Cat (lit "c") (Chr (λ c, is_char "c" c || is_char "|" c || is_char "m" c)))).

(** [(\d+)\s*l] *)
Definition re_engine_l : regex :=
  Cat (Group (Many1 isdigit)) (Cat (Many isspace) (lit "l")).

Definition extract_engine_cc (text : string) : result (option Z) :=
  match search re_engine_cc (lower text) with
  | Some m => rbind (int (group1_text m)) (λ n, Ok (Some n))
  | None =>
      match search re_engine_l (lower text) with
      | Some m => rbind (int (group1_text m)) (λ n, Ok (Some (n * 1000)%Z))
      | None => Ok None
      end
  end.

(** [\b\d{4}-\d{4}\b], [\b\d{8}\b], [\+506\s*\d{8}] *)
Definition phone_patterns : list regex :=
  [ Cat WordB (Cat (times 4 digit) (Cat (lit "-") (Cat (times 4 digit) WordB)));
    Cat WordB (Cat (times 8 digit) WordB);
    Cat (lits "+506") (Cat (Many isspace) (times 8 digit)) ].

(** [list(set(phones))]: the distinct matches; Python leaves their order
    unspecified, the model keeps the order of first occurrence. *)
Definition extract_phone_numbers (text : string) : list string :=
  remove_dups (flat_map (λ r, findall r text) phone_patterns).

End VehicleParser.

(** ** Batches: a pandas [DataFrame] *)

Inductive column :=
| NumCol (xs : list float)            (* int64 / float64 series, null = NaN *)
| StrCol (xs : list (option string))  (* object series of text, null = None *)
| BoolCol (xs : list bool).

Record DataFrame := { nrows : nat; columns : gmap string column }.

Definition col_length (c : column) : nat :=
  match c with
  | NumCol xs => length xs
  | StrCol xs => length xs
  | BoolCol xs => length xs
  end.

(** The value in one cell of a series; every null (NaN, None) reads as
    [CNull]. *)
Inductive cell :=
| CNull
| CNum (x : float)
| CStr (s : string)
| CBool (b : bool).

Definition cells (c : column) : list cell :=
  match c with
  | NumCol xs => map (λ x, if PrimFloat.is_nan x then CNull else CNum x) xs
  | StrCol xs => map (λ x, match x with Some s => CStr s | None => CNull end) xs
  | BoolCol bs => map CBool bs
  end.

(** [df[k].iloc[i]], when the column and the row exist *)
Definition cell_at (df : DataFrame) (k : string) (i : nat) : option cell :=
  match columns df !! k with
  | Some c => cells c !! i
  | None => None
  end.

(** *** Series operations *)

Module Series.

Definition nan : float := PrimFloat.nan.

Definition float_of_bool (b : bool) : float := if b then 1%float else 0%float.

Definition float_of_Z (z : Z) : float := PrimFloat.of_uint63 (Uint63.of_Z z).

(** The numbers an arithmetic or ordering operation sees in a series.
    In an object series the nulls are skipped (they behave as NaN) and a
    text value raises [TypeError]; booleans count as 0 and 1. *)
Definition as_num (c : column) : result (list float) :=
  match c with
  | NumCol xs => Ok xs
  | StrCol xs => if forallb (λ x, negb (bool_decide (is_Some x))) xs
                 then Ok (map (λ _, nan) xs) else Raise TypeError
  | BoolCol bs => Ok (map float_of_bool bs)
  end.

(** [series < v], [series > v] *)
Definition lt (c : column) (v : float) : result (list bool) :=
  rbind (as_num c) (λ xs, Ok (map (λ x, x <? v)%float xs)).
Definition gt (c : column) (v : float) : result (list bool) :=
  rbind (as_num c) (λ xs, Ok (map (λ x, v <? x)%float xs)).

(** [series == v]: never raises; a text or null cell is not equal to a
    number. *)
Definition eq_num (c : column) (v : float) : list bool :=
  match c with
  | NumCol xs => map (λ x, x =? v)%float xs
  | StrCol xs => map (λ _, false) xs
  | BoolCol bs => map (λ b, float_of_bool b =? v)%float bs
  end.

(** [series == s] for a text [s]. *)
Definition eq_str (c : column) (s : string) : list bool :=
  match c with
  | StrCol xs => map (λ x, bool_decide (x = Some s)) xs
  | NumCol xs => map (λ _, false) xs
  | BoolCol bs => map (λ _, false) bs
  end.

(** [a | b] on boolean masks *)
Definition or_mask (a b : list bool) : list bool := zip_with orb a b.
Definition and_mask (a b : list bool) : list bool := zip_with andb a b.

Definition mask_float (m : bool) (x : float) : float := if m then nan else x.
Definition mask_text (m : bool) (x : option string) : option string :=
  if m then None else x.

(** The series after [df.loc[mask, col] = None]; a boolean series is
    carried on as the numbers 0 and 1. *)
Definition set_null (mask : list bool) (c : column) : column :=
  match c with
  | NumCol xs => NumCol (zip_with mask_float mask xs)
  | StrCol xs => StrCol (zip_with mask_text mask xs)
  | BoolCol bs => NumCol (zip_with mask_float mask (map float_of_bool bs))
  end.

(** [a / b], [v - a], [a + v] *)
Definition div (a b : column) : result (list float) :=
  rbind (as_num a) (λ xs, rbind (as_num b) (λ ys,
    Ok (zip_with PrimFloat.div xs ys))).
Definition rsub (v : float) (a : column) : result (list float) :=
  rbind (as_num a) (λ xs, Ok (map (λ x, v - x)%float xs)).
Definition add (a : column) (v : float) : result (list float) :=
  rbind (as_num a) (λ xs, Ok (map (λ x, x + v)%float xs)).

(** The [.str] accessor: element-wise on text, nulls stay null; it is
    refused on a series that is not text. *)
Definition str_map (f : string → string) (c : column) : result column :=
  match c with
  | StrCol xs => Ok (StrCol (map (option_map f) xs))
  | _ => Raise AttributeError
  end.

Fixpoint assoc (k : string) (m : list (string * string)) : option string :=
  match m with
  | [] => None
  | (k', v) :: m' => if bool_decide (k = k') then Some v else assoc k m'
  end.

(** [series.replace(mapping)]: whole values that are keys of the
    mapping are replaced. *)
Definition replace_values (m : list (string * string)) (c : column) : column :=
  match c with
  | StrCol xs =>
      StrCol (map (option_map (λ s, match assoc s m with Some v => v | None => s end)) xs)
  | _ => c
  end.

(** [series.replace('', None)] *)
Definition replace_empty (c : column) : column :=
  match c with
  | StrCol xs =>
      StrCol (map (λ x, match x with Some EmptyString => None | _ => x end) xs)
  | _ => c
  end.

(** [series.isin(values)] *)
Definition isin (c : column) (vs : list string) : list bool :=
  match c with
  | StrCol xs => map (λ x, match x with
                           | Some s => bool_decide (s ∈ vs)
                           | None => false
                           end) xs
  | NumCol xs => map (λ _, false) xs
  | BoolCol bs => map (λ _, false) bs
  end.

(** [series.isnull()] *)
Definition isnull (c : column) : list bool :=
  match c with
  | NumCol xs => map PrimFloat.is_nan xs
  | StrCol xs => map (λ x, negb (bool_decide (is_Some x))) xs
  | BoolCol bs => map (λ _, false) bs
  end.

Definition count_true (m : list bool) : nat := length (filter (λ b, b = true) m).

End Series.

(** *** Code that works on one mutable object

    A computation reads and updates the object it was handed and either
    returns a value or raises; updates made before a raise stay. *)

Definition St (S A : Type) : Type := S → result A * S.

Definition ret {S A} (a : A) : St S A := λ s, (Ok a, s).

Definition bind {S A B} (m : St S A) (f : A → St S B) : St S B :=
  λ s, match m s with
       | (Ok a, s') => f a s'
       | (Raise e, s') => (Raise e, s')
       end.

Declare Scope st_scope.
Delimit Scope st_scope with st.
Bind Scope st_scope with St.
Notation "x ← m ; f" := (bind m (λ x, f))
  (at level 20, m at level 100, f at level 200, only parsing) : st_scope.
Notation "' x ← m ; f" := (bind m (λ x, f))
  (at level 20, x pattern, m at level 100, f at level 200, only parsing) : st_scope.
Notation "m ;; f" := (bind m (λ _, f))
  (at level 100, f at level 200, only parsing, right associativity) : st_scope.
Local Open Scope st_scope.

(** Code that works on a [DataFrame]. *)
Abbreviation DF := (St DataFrame).

Definition lift {S A} (r : result A) : St S A := λ s, (r, s).

(** [k in df.columns] *)
Definition has_column (k : string) : DF bool :=
  λ df, (Ok (bool_decide (is_Some (columns df !! k))), df).

(** [df[k]] *)
Definition getitem (k : string) : DF column :=
  λ df, match columns df !! k with
        | Some c => (Ok c, df)
        | None => (Raise (KeyError k), df)
        end.

(** [df[k] = c] *)
Definition set_column (k : string) (c : column) (df : DataFrame) : DataFrame :=
  {| nrows := nrows df; columns := <[k := c]> (columns df) |}.

Definition setitem (k : string) (c : column) : DF unit :=
  λ df, (Ok tt, set_column k c df).

(** [len(df)] *)
Definition len : DF nat := λ df, (Ok (nrows df), df).

Definition when {S} (b : bool) (m : St S unit) : St S unit := if b then m else ret tt.

(** [a and b], which evaluates [b] only when [a] holds *)
Definition and_also {S} (a b : St S bool) : St S bool :=
  x ← a; if x then b else ret false.

Fixpoint for_each {S A} (l : list A) (body : A → St S unit) : St S unit :=
  match l with
  | [] => ret tt
  | x :: l' => body x ;; for_each l' body
  end.

(** ** [DataCleaner] (src/etl/transformers/data_cleaner.py) *)

Module DataCleaner.
Import Series.

Definition brand_mapping : list (string * string) :=
  [ ("bmw", "BMW"); ("mercedes", "Mercedes-Benz"); ("mercedes benz", "Mercedes-Benz");
    ("volkswagen", "Volkswagen"); ("vw", "Volkswagen") ].

Definition empty_cols : list string :=
  ["doors"; "style"; "location"; "province"; "features"].

(** [df.drop(columns=[col for col in empty_cols if col in df.columns])] *)
Definition _remove_empty_columns : DF unit :=
  λ df, (Ok tt, {| nrows := nrows df;
                   columns := foldr delete (columns df) empty_cols |}).

Definition _clean_brands : DF unit :=
  b ← has_column "brand";
  when b (
    c ← getitem "brand";
    c ← lift (str_map PyStr.lower c);
    c ← lift (str_map PyStr.strip c);
    setitem "brand" c ;;
    c ← getitem "brand";
    setitem "brand" (replace_values brand_mapping c) ;;
    c ← getitem "brand";
    c ← lift (str_map PyStr.title c);
    setitem "brand" c).

(** The model of the rows whose brand is Mercedes-Benz loses every
    "BENZ " it contains. *)
Definition strip_benz (m : bool) (x : option string) : option string :=
  if m then option_map (PyStr.replace "BENZ " EmptyString) x else x.

Definition _clean_models : DF unit :=
  b ← has_column "model";
  when b (
    c ← getitem "model";
    setitem "model" (replace_empty c) ;;
    c ← getitem "model";
    c ← lift (str_map PyStr.strip c);
    c ← lift (str_map PyStr.upper c);
    setitem "model" c ;;
    brand ← getitem "brand";
    c ← getitem "model";
    match c with
    | StrCol xs => setitem "model" (StrCol (zip_with strip_benz (eq_str brand "Mercedes-Benz") xs))
    | _ => lift (Raise AttributeError)
    end).

(** "híbrido", with U+00ED *)
Definition hibrido_accent : string := "h" ++ String "237"%char "brido".

Definition fuel_mapping : list (string * string) :=
  [ ("gasolina", "Gasoline"); ("diesel", "Diesel");
    (hibrido_accent, "Hybrid"); ("hibrido", "Hybrid") ].

Definition _clean_fuel_types : DF unit :=
  b ← has_column "fuel_type";
  when b (
    c ← getitem "fuel_type";
    setitem "fuel_type" (replace_empty c) ;;
    c ← getitem "fuel_type";
    c ← lift (str_map PyStr.lower c);
    setitem "fuel_type" (replace_values fuel_mapping c)).

Definition _clean_years : DF unit :=
  b ← has_column "year";
  when b (
    c ← getitem "year";
    low ← lift (lt c 1950);
    c' ← getitem "year";
    high ← lift (gt c' 2026);
    c'' ← getitem "year";
    setitem "year" (set_null (or_mask low high) c'')).

Definition _clean_mileage : DF unit :=
  b ← has_column "mileage";
  when b (
    c ← getitem "mileage";
    high ← lift (gt c 500000);
    setitem "mileage" (set_null high c) ;;
    c ← getitem "mileage";
    setitem "mileage" (set_null (eq_num c 0) c)).

Definition _clean_engine_cc : DF unit :=
  b ← has_column "engine_cc";
  when b (
    c ← getitem "engine_cc";
    low ← lift (lt c 500);
    c' ← getitem "engine_cc";
    high ← lift (gt c' 6000);
    c'' ← getitem "engine_cc";
    setitem "engine_cc" (set_null (or_mask low high) c'')).

(** "café", with U+00E9 *)
Definition cafe_accent : string := "caf" ++ String "233"%char EmptyString.

Definition color_mapping : list (string * string) :=
  [ ("negro", "Black"); ("blanco", "White"); ("gris", "Gray"); ("azul", "Blue");
    ("rojo", "Red"); ("plateado", "Silver"); (cafe_accent, "Brown");
    ("vino", "Burgundy") ].

Definition _clean_colors : DF unit :=
  for_each ["color_exterior"; "color_interior"] (λ col,
    b ← has_column col;
    when b (
      c ← getitem col;
      c ← lift (str_map PyStr.lower c);
      c ← lift (str_map PyStr.strip c);
      setitem col c ;;
      for_each color_mapping (λ '(spanish, english),
        c ← getitem col;
        c ← lift (str_map (PyStr.replace spanish (PyStr.lower english)) c);
        setitem col c) ;;
      c ← getitem col;
      c ← lift (str_map PyStr.title c);
      setitem col c)).

Definition _validate_prices : DF unit :=
  b ← and_also (has_column "price_colones") (has_column "price_usd");
  when b (
    colones ← getitem "price_colones";
    usd ← getitem "price_usd";
    rate ← lift (div colones usd);
    setitem "exchange_rate" (NumCol rate) ;;
    r ← getitem "exchange_rate";
    low ← lift (lt r 400);
    r' ← getitem "exchange_rate";
    high ← lift (gt r' 600);
    setitem "price_flag" (BoolCol (or_mask low high))).

(** The characters [[^\d-]] removes are the ones that are neither a
    digit nor a hyphen. *)
Definition phone_char (c : ascii) : bool := PyStr.isdigit c || PyStr.is_char "-" c.

Definition _clean_phone_numbers : DF unit :=
  b ← has_column "seller_phone";
  when b (
    c ← getitem "seller_phone";
    c ← lift (str_map (PyStr.filter_chars phone_char) c);
    setitem "seller_phone" c).

Definition luxury_brands : list string :=
  ["BMW"; "Mercedes-Benz"; "Audi"; "Porsche"; "Lexus"; "Jaguar"; "Land Rover"].

(** [current_year] stands for [pd.Timestamp.now().year]. *)
Definition _add_derived_features (current_year : Z) : DF unit :=
  b ← has_column "year";
  when b (
    c ← getitem "year";
    age ← lift (rsub (float_of_Z current_year) c);
    setitem "vehicle_age" (NumCol age)) ;;
  b ← and_also (has_column "price_usd") (has_column "vehicle_age");
  when b (
    usd ← getitem "price_usd";
    age ← getitem "vehicle_age";
    age1 ← lift (add age 1);
    ppy ← lift (div usd (NumCol age1));
    setitem "price_per_year" (NumCol ppy)) ;;
  b ← has_column "brand";
  when b (
    c ← getitem "brand";
    setitem "is_luxury" (BoolCol (isin c luxury_brands))).

Definition clean_steps (current_year : Z) : DF unit :=
  _remove_empty_columns ;;
  _clean_brands ;;
  _clean_models ;;
  _clean_fuel_types ;;
  _clean_years ;;
  _clean_mileage ;;
  _clean_engine_cc ;;
  _clean_colors ;;
  _validate_prices ;;
  _clean_phone_numbers ;;
  _add_derived_features current_year.

(** [clean_data] works on [df.copy()], so the caller's batch is not
    touched and the result is the copy after the last step. *)
Definition clean_data (current_year : Z) (df : DataFrame) : result DataFrame :=
  match clean_steps current_year df with
  | (Ok _, df') => Ok df'
  | (Raise e, _) => Raise e
  end.

End DataCleaner.

(** ** [DataValidator] (src/etl/transformers/data_validator.py) *)

Module DataValidator.
Import Series.

Record report := {
  total_records : nat;
  validation_errors : list string;
  warnings : list string;
  passed_validation : bool }.

Definition add_error (msg : string) (r : report) : report :=
  {| total_records := total_records r;
     validation_errors := validation_errors r ++ [msg];
     warnings := warnings r;
     passed_validation := passed_validation r |}.

Definition add_warning (msg : string) (r : report) : report :=
  {| total_records := total_records r;
     validation_errors := validation_errors r;
     warnings := warnings r ++ [msg];
     passed_validation := passed_validation r |}.

Definition set_failed (r : report) : report :=
  {| total_records := total_records r;
     validation_errors := validation_errors r;
     warnings := warnings r;
     passed_validation := false |}.

(** [self.validation_rules], in the order of the dictionary *)
Definition validation_rules : list (string * (float * float)) :=
  [ ("year", (1950, 2026)); ("price_usd", (1000, 500000));
    ("price_colones", (500000, 250000000)); ("mileage", (0, 500000));
    ("engine_cc", (500, 6000)); ("exchange_rate", (400, 600)) ]%float.

Definition required_fields : list string :=
  ["url"; "vehicle_id"; "brand"; "price_usd"; "price_colones"].

(** [series.dropna()] *)
Definition dropna (c : column) : column :=
  match c with
  | NumCol xs => NumCol (filter (λ x, PrimFloat.is_nan x = false) xs)
  | StrCol xs => StrCol (filter (λ x, is_Some x) xs)
  | BoolCol bs => BoolCol bs
  end.

Definition _validate_numeric_range (field : string) (min_val max_val : float) : DF nat :=
  b ← has_column field;
  if negb b then ret 0 else
    c ← getitem field;
    low ← lift (lt (dropna c) min_val);
    high ← lift (gt (dropna c) max_val);
    ret (count_true (or_mask low high)).

(** [df[mask][col]]: the rows of a series a boolean mask selects *)
Fixpoint select {A} (mask : list bool) (xs : list A) : list A :=
  match mask, xs with
  | m :: mask', x :: xs' => if m then x :: select mask' xs' else select mask' xs'
  | _, _ => []
  end.

Definition select_col (mask : list bool) (c : column) : column :=
  match c with
  | NumCol xs => NumCol (select mask xs)
  | StrCol xs => StrCol (select mask xs)
  | BoolCol bs => BoolCol (select mask bs)
  end.

Definition _validate_price_consistency : DF nat :=
  b ← and_also (has_column "price_usd") (has_column "price_colones");
  if negb b then ret 0 else
    usd ← getitem "price_usd";
    m1 ← lift (gt usd 0);
    colones ← getitem "price_colones";
    m2 ← lift (gt colones 0);
    let mask := and_mask m1 m2 in
    if bool_decide (count_true mask = 0) then ret 0 else
      rates ← lift (div (select_col mask colones) (select_col mask usd));
      low ← lift (lt (NumCol rates) 400);
      high ← lift (gt (NumCol rates) 600);
      ret (count_true (or_mask low high)).

(** Equality of cell values as [duplicated] sees it: all nulls are one
    value. *)
Definition cell_eqb (a b : cell) : bool :=
  match a, b with
  | CNull, CNull => true
  | CNum x, CNum y => (x =? y)%float
  | CStr s, CStr t => bool_decide (s = t)
  | CBool x, CBool y => Bool.eqb x y
  | _, _ => false
  end.

(** [series.duplicated()]: a value is a duplicate when it occurred
    earlier in the series. *)
Fixpoint duplicated_from (seen : list cell) (xs : list cell) : list bool :=
  match xs with
  | [] => []
  | x :: xs' => existsb (cell_eqb x) seen :: duplicated_from (x :: seen) xs'
  end.

Definition duplicated (c : column) : list bool := duplicated_from [] (cells c).

Fixpoint fold_fields {A} (l : list A) (r : report) (body : A → report → DF report)
    : DF report :=
  match l with
  | [] => ret r
  | x :: l' => r' ← body x r; fold_fields l' r' body
  end.

Definition check_required (field : string) (r : report) : DF report :=
  b ← has_column field;
  if negb b then
    ret (set_failed (add_error ("Missing required field: " ++ field) r))
  else
    c ← getitem field;
    if existsb id (isnull c) then
      c' ← getitem field;
      let null_count := count_true (isnull c') in
      ret (add_warning (field ++ " has " ++ pretty null_count ++ " null values") r)
    else ret r.

Definition check_range (rule : string * (float * float)) (r : report) : DF report :=
  let '(field, (min_val, max_val)) := rule in
  b ← has_column field;
  if b then
    invalid_count ← _validate_numeric_range field min_val max_val;
    ret (if bool_decide (0 < invalid_count)
          then add_warning (field ++ " has " ++ pretty invalid_count
                              ++ " values outside valid range") r
          else r)
  else ret r.

Definition check_duplicates (r : report) : DF report :=
  b ← has_column "vehicle_id";
  if b then
    c ← getitem "vehicle_id";
    let duplicate_count := count_true (duplicated c) in
    ret (if bool_decide (0 < duplicate_count)
          then add_warning ("Found " ++ pretty duplicate_count ++ " duplicate vehicle IDs") r
          else r)
  else ret r.

Definition check_prices (r : report) : DF report :=
  b ← and_also (has_column "price_usd") (has_column "price_colones");
  if b then
    inconsistent_prices ← _validate_price_consistency;
    ret (if bool_decide (0 < inconsistent_prices)
          then add_warning (pretty inconsistent_prices
                              ++ " records have inconsistent USD/Colones prices") r
          else r)
  else ret r.

Definition validate_data : DF report :=
  n ← len;
  let r := {| total_records := n; validation_errors := []; warnings := [];
              passed_validation := true |} in
  r ← fold_fields required_fields r check_required;
  r ← fold_fields validation_rules r check_range;
  r ← check_duplicates r;
  check_prices r.

End DataValidator.

(** ** [CleanDataLoader] (src/etl/loaders/clean_data_loader.py) *)

Module CleanDataLoader.
Import Series.

(** One row of [brand_distribution]. *)
Definition brand_count : Type := cell * nat.

Record stats := {
  total_records : nat;
  missing_percentages : list (string * float);
  price_issues : nat;
  brand_distribution : list brand_count }.

(** The clean store: the table [vehicles_clean], if it exists. *)
Definition store : Type := option DataFrame.

(** [load_clean_data(df, mode='replace')]: the schema is recreated and
    [to_sql(if_exists='replace')] then replaces the table by the batch,
    whatever columns it has.  (The append mode belongs to the incremental
    run.) *)
Definition load_clean_data (df : DataFrame) : St store unit :=
  λ _, (Ok tt, Some df).

(** A column a query names; the query fails when the table lacks it. *)
Definition sql_column (k : string) : St store column :=
  λ st, match st with
        | Some t =>
            match columns t !! k with
            | Some c => (Ok c, st)
            | None => (Raise (DatabaseError ("no such column: " ++ k)), st)
            end
        | None => (Raise (DatabaseError "no such table: vehicles_clean"), st)
        end.

Definition sql_count : St store nat :=
  λ st, match st with
        | Some t => (Ok (nrows t), st)
        | None => (Raise (DatabaseError "no such table: vehicles_clean"), st)
        end.

(** [SUM(CASE WHEN col IS NULL THEN 1 ELSE 0 END) * 100.0 / COUNT( * )] *)
Definition missing_pct (c : column) (n : nat) : float :=
  (float_of_Z (Z.of_nat (count_true (isnull c))) * 100
     / float_of_Z (Z.of_nat n))%float.

(** [GROUP BY brand]: the distinct values with their counts, in order
    of first occurrence. *)
Fixpoint bump (x : cell) (acc : list brand_count) : list brand_count :=
  match acc with
  | [] => [(x, 1)]
  | (y, n) :: acc' =>
      if DataValidator.cell_eqb x y then (y, S n) :: acc' else (y, n) :: bump x acc'
  end.

Definition group_count (xs : list cell) : list brand_count :=
  fold_left (λ acc x, bump x acc) xs [].

(** [ORDER BY count DESC]: a stable insertion sort; SQL leaves the order
    of equal counts open. *)
Fixpoint insert_desc (p : brand_count) (l : list brand_count) : list brand_count :=
  match l with
  | [] => [p]
  | q :: l' => if (snd q <? snd p)%nat then p :: l else q :: insert_desc p l'
  end.

Definition order_desc (l : list brand_count) : list brand_count :=
  foldr insert_desc [] l.

Definition get_data_quality_stats : St store stats :=
  total ← sql_count;
  model ← sql_column "model";
  year ← sql_column "year";
  mileage ← sql_column "mileage";
  fuel ← sql_column "fuel_type";
  engine ← sql_column "engine_cc";
  flag ← sql_column "price_flag";
  brand ← sql_column "brand";
  ret {| total_records := total;
         missing_percentages :=
           [ ("model_missing", missing_pct model total);
             ("year_missing", missing_pct year total);
             ("mileage_missing", missing_pct mileage total);
             ("fuel_missing", missing_pct fuel total);
             ("engine_missing", missing_pct engine total) ];
         price_issues := count_true (eq_num flag 1);
         brand_distribution := take 10 (order_desc (group_count (cells brand))) |}.

End CleanDataLoader.

(** ** [VehicleETLPipeline] (src/etl/pipelines/vehicle_etl_pipeline.py) *)

Module VehicleETLPipeline.

Inductive level := INFO | WARNING | ERROR.

(** A log message: text, with the numbers an f-string formats as
    [:.2f] kept as numbers. *)
Inductive piece :=
| Text (s : string)
| Fixed2 (x : float).

Definition log_record : Type := level * list piece.

(** What a run can see and change: the raw store it reads, the clean
    store it writes and the log. *)
Record world := {
  raw_store : DataFrame;
  clean_store : CleanDataLoader.store;
  log : list log_record }.

Abbreviation ETL := (St world).

Definition add_logs (w : world) (l : list log_record) : world :=
  {| raw_store := raw_store w; clean_store := clean_store w; log := log w ++ l |}.

Definition set_store (w : world) (st : CleanDataLoader.store) : world :=
  {| raw_store := raw_store w; clean_store := st; log := log w |}.

Definition logger (l : level) (msg : list piece) : ETL unit :=
  λ w, (Ok tt, add_logs w [(l, msg)]).

Definition info (s : string) : ETL unit := logger INFO [Text s].
Definition warning (s : string) : ETL unit := logger WARNING [Text s].
Definition error (s : string) : ETL unit := logger ERROR [Text s].

(** [self.extractor.extract_all_vehicles()]: the whole raw table, as a
    new [DataFrame]. *)
Definition extract_all_vehicles : ETL DataFrame := λ w, (Ok (raw_store w), w).

(** A method call on a [DataFrame] the run holds: the value the call
    returns and the object as the call left it. *)
Definition call {A} (m : DF A) (df : DataFrame) : ETL (A * DataFrame) :=
  λ w, match m df with
       | (Ok a, df') => (Ok (a, df'), w)
       | (Raise e, _) => (Raise e, w)
       end.

(** A call on the clean store. *)
Definition on_store {A} (m : St CleanDataLoader.store A) : ETL A :=
  λ w, match m (clean_store w) with
       | (r, st) => (r, set_store w st)
       end.

(** [df.empty] *)
Definition empty (df : DataFrame) : bool :=
  bool_decide (nrows df = 0) || bool_decide (columns df = ∅).

Definition exn_text (e : exn) : string :=
  match e with
  | ValueError => "ValueError"
  | TypeError => "TypeError"
  | AttributeError => "AttributeError"
  | KeyError k => "'" ++ k ++ "'"
  | DatabaseError m => m
  end.

Definition log_validation_report (r : DataValidator.report) (title : string) : ETL unit :=
  info ("=== " ++ title ++ " VALIDATION ====") ;;
  info ("Total records: " ++ pretty (DataValidator.total_records r)) ;;
  info ("Validation passed: "
          ++ (if DataValidator.passed_validation r then "True" else "False")) ;;
  when (negb (bool_decide (DataValidator.validation_errors r = []))) (
    error "Validation errors:" ;;
    for_each (DataValidator.validation_errors r) (λ e, error ("  " ++ e))) ;;
  when (negb (bool_decide (DataValidator.warnings r = []))) (
    warning "Validation warnings:" ;;
    for_each (DataValidator.warnings r) (λ m, warning ("  " ++ m))).

Definition cell_text (c : cell) : list piece :=
  match c with
  | CNull => [Text "None"]
  | CNum x => [Fixed2 x]
  | CStr s => [Text s]
  | CBool b => [Text (if b then "1" else "0")]
  end.

Definition log_quality_stats (s : CleanDataLoader.stats) : ETL unit :=
  info "=== DATA QUALITY REPORT ===" ;;
  info ("Total records: " ++ pretty (CleanDataLoader.total_records s)) ;;
  info ("Price issues: " ++ pretty (CleanDataLoader.price_issues s)) ;;
  info "Missing data percentages:" ;;
  for_each (CleanDataLoader.missing_percentages s) (λ '(field, percentage),
    logger INFO [Text ("  " ++ field ++ ": "); Fixed2 percentage; Text "%"]) ;;
  info "Top brands:" ;;
  for_each (take 5 (CleanDataLoader.brand_distribution s)) (λ '(brand, count),
    logger INFO ([Text "  "] ++ cell_text brand
                   ++ [Text (": " ++ pretty count ++ " vehicles")])).

(** [try: body except Exception as e: handler(e); raise] *)
Definition try_reraise {A} (body : ETL A) (handler : exn → ETL unit) : ETL A :=
  λ w, match body w with
       | (Ok a, w') => (Ok a, w')
       | (Raise e, w') =>
           match handler e w' with
           | (_, w'') => (Raise e, w'')
           end
       end.

(** [run_full_pipeline]; [None] is the early [return] on an empty raw
    store.  [current_year] is the year of the clock the cleaner reads. *)
Definition run_full_pipeline (current_year : Z) : ETL (option CleanDataLoader.stats) :=
  try_reraise (
    info "Starting ETL pipeline..." ;;
    info "Extracting raw data..." ;;
    raw_data ← extract_all_vehicles;
    info ("Extracted " ++ pretty (nrows raw_data) ++ " records") ;;
    if empty raw_data then
      warning "No data to process" ;;
      ret None
    else
      info "Validating raw data..." ;;
      '(validation_report, raw_data) ← call DataValidator.validate_data raw_data;
      log_validation_report validation_report "RAW DATA" ;;
      info "Cleaning and transforming data..." ;;
      clean_data ← lift (DataCleaner.clean_data current_year raw_data);
      info ("Cleaned data: " ++ pretty (nrows clean_data) ++ " records") ;;
      info "Validating cleaned data..." ;;
      '(clean_validation, clean_data) ← call DataValidator.validate_data clean_data;
      log_validation_report clean_validation "CLEAN DATA" ;;
      info "Loading clean data..." ;;
      on_store (CleanDataLoader.load_clean_data clean_data) ;;
      info "Generating quality report..." ;;
      stats ← on_store CleanDataLoader.get_data_quality_stats;
      log_quality_stats stats ;;
      info "ETL pipeline completed successfully" ;;
      ret (Some stats))
    (λ e, error ("ETL pipeline failed: " ++ exn_text e)).

End VehicleETLPipeline.

(** ** Vocabulary of the statements *)

(** A cell is null, or a number with the property [P]. *)
Definition null_or (P : float → Prop) (c : cell) : Prop :=
  c = CNull ∨ ∃ x, c = CNum x ∧ P x.

(** [lo <= x <= hi] and [lo < x <= hi] on binary64 numbers. *)
Definition within (lo hi x : float) : Prop :=
  (lo <=? x)%float = true ∧ (x <=? hi)%float = true.
Definition within_open (lo hi x : float) : Prop :=
  (lo <? x)%float = true ∧ (x <=? hi)%float = true.

(** Every cell of column [k] (if the batch has it) satisfies [P]. *)
Definition every_cell (df : DataFrame) (k : string) (P : cell → Prop) : Prop :=
  ∀ i c, cell_at df k i = Some c → P c.

(** A batch whose mileage is negative. *)
Definition negative_mileage_batch : DataFrame :=
  {| nrows := 1;
     columns := list_to_map
       [ ("url", StrCol [Some "https://crautos.com/autosusados/cardetail.cfm?c=1"]);
         ("vehicle_id", StrCol [Some "1"]);
         ("brand", StrCol [Some "Toyota"]);
         ("price_usd", NumCol [20000%float]);
         ("price_colones", NumCol [10000000%float]);
         ("year", NumCol [2020%float]);
         ("mileage", NumCol [(-5)%float]);
         ("engine_cc", NumCol [1800%float]) ] |}.

(** The flag of one exchange rate. *)
Definition suspicious (rate : float) : bool :=
  ((rate <? 400) || (600 <? rate))%float.

(** The columns the validator compares with numbers hold numbers, where
    the batch has them. *)
Definition numeric_column (df : DataFrame) (k : string) : Prop :=
  ∀ c, columns df !! k = Some c → ∃ xs, c = NumCol xs.

Definition numeric_rules (df : DataFrame) : Prop :=
  ∀ k, k ∈ map fst DataValidator.validation_rules → numeric_column df k.

(** The rows of a batch read from the raw store: one series per column of
    the table [vehicles] (src/scrapers/database/db_manager.py), numbers for
    the INTEGER columns and text for the others. *)
Record raw_rows := {
  r_id : list float;
  r_url : list (option string);
  r_vehicle_id : list (option string);
  r_brand : list (option string);
  r_model : list (option string);
  r_year : list float;
  r_price_colones : list float;
  r_price_usd : list float;
  r_mileage : list float;
  r_fuel_type : list (option string);
  r_transmission : list (option string);
  r_engine_cc : list float;
  r_doors : list float;
  r_style : list (option string);
  r_color_exterior : list (option string);
  r_color_interior : list (option string);
  r_location : list (option string);
  r_province : list (option string);
  r_seller_phone : list (option string);
  r_seller_whatsapp : list (option string);
  r_description : list (option string);
  r_features : list (option string);
  r_images : list (option string);
  r_scraped_at : list (option string);
  r_updated_at : list (option string) }.

Definition raw_batch (n : nat) (t : raw_rows) : DataFrame :=
  {| nrows := n;
     columns := list_to_map
       [ ("id", NumCol (r_id t)); ("url", StrCol (r_url t));
         ("vehicle_id", StrCol (r_vehicle_id t)); ("brand", StrCol (r_brand t));
         ("model", StrCol (r_model t)); ("year", NumCol (r_year t));
         ("price_colones", NumCol (r_price_colones t));
         ("price_usd", NumCol (r_price_usd t)); ("mileage", NumCol (r_mileage t));
         ("fuel_type", StrCol (r_fuel_type t));
         ("transmission", StrCol (r_transmission t));
         ("engine_cc", NumCol (r_engine_cc t)); ("doors", NumCol (r_doors t));
         ("style", StrCol (r_style t));
         ("color_exterior", StrCol (r_color_exterior t));
         ("color_interior", StrCol (r_color_interior t));
         ("location", StrCol (r_location t)); ("province", StrCol (r_province t));
         ("seller_phone", StrCol (r_seller_phone t));
         ("seller_whatsapp", StrCol (r_seller_whatsapp t));
         ("description", StrCol (r_description t));
         ("features", StrCol (r_features t)); ("images", StrCol (r_images t));
         ("scraped_at", StrCol (r_scraped_at t));
         ("updated_at", StrCol (r_updated_at t)) ] |}.

(** One listing as the scraper stores it. *)
Definition one_listing : raw_rows :=
  {| r_id := [1%float];
     r_url := [Some "https://crautos.com/autosusados/cardetail.cfm?c=1"];
     r_vehicle_id := [Some "1"];
     r_brand := [Some "Toyota"];
     r_model := [Some "COROLLA"];
     r_year := [2020%float];
     r_price_colones := [10000000%float];
     r_price_usd := [20000%float];
     r_mileage := [85000%float];
     r_fuel_type := [Some "Gasolina"];
     r_transmission := [Some "Manual"];
     r_engine_cc := [1800%float];
     r_doors := [PrimFloat.nan];
     r_style := [None];
     r_color_exterior := [Some "Negro"];
     r_color_interior := [Some "Gris"];
     r_location := [None];
     r_province := [None];
     r_seller_phone := [Some "8888-1234"];
     r_seller_whatsapp := [None];
     r_description := [Some "Excelente estado"];
     r_features := [None];
     r_images := [Some "[]"];
     r_scraped_at := [Some "2025-01-01 00:00:00"];
     r_updated_at := [Some "2025-01-01 00:00:00"] |}.

(** The same listing in a batch that lacks the required column [url]. *)
Definition no_url_batch : DataFrame :=
  {| nrows := 1; columns := delete "url" (columns (raw_batch 1 one_listing)) |}.

(** The log line that opens the Clean stage. *)
Definition cleaning_line : VehicleETLPipeline.log_record :=
  (VehicleETLPipeline.INFO, [VehicleETLPipeline.Text "Cleaning and transforming data..."]).

(** A run starts with an empty log and no clean table. *)
Definition start (raw : DataFrame) : VehicleETLPipeline.world :=
  {| VehicleETLPipeline.raw_store := raw;
     VehicleETLPipeline.clean_store := None;
     VehicleETLPipeline.log := [] |}.

(** The type of the values of a series, and the schema of a batch. *)
Inductive kind := KNum | KStr | KBool.

Definition col_kind (c : column) : kind :=
  match c with
  | NumCol _ => KNum
  | StrCol _ => KStr
  | BoolCol _ => KBool
  end.

Definition kinds (df : DataFrame) : gmap string kind := col_kind <$> columns df.

(** The schema of the table [vehicles] of the raw store. *)
Definition raw_kinds : gmap string kind :=
  list_to_map
    [ ("id", KNum); ("url", KStr); ("vehicle_id", KStr); ("brand", KStr);
      ("model", KStr); ("year", KNum); ("price_colones", KNum); ("price_usd", KNum);
      ("mileage", KNum); ("fuel_type", KStr); ("transmission", KStr);
      ("engine_cc", KNum); ("doors", KNum); ("style", KStr);
      ("color_exterior", KStr); ("color_interior", KStr); ("location", KStr);
      ("province", KStr); ("seller_phone", KStr); ("seller_whatsapp", KStr);
      ("description", KStr); ("features", KStr); ("images", KStr);
      ("scraped_at", KStr); ("updated_at", KStr) ].

Definition raw_schema (df : DataFrame) : Prop := kinds df = raw_kinds.

(** The schema of a cleaned raw batch: the five empty columns are gone and
    the five derived ones are there. *)
Definition clean_kinds : gmap string kind :=
  <["is_luxury" := KBool]> (<["price_per_year" := KNum]> (<["vehicle_age" := KNum]>
    (<["price_flag" := KBool]> (<["exchange_rate" := KNum]>
       (foldr delete raw_kinds DataCleaner.empty_cols))))).

(** ** Vocabulary of the proofs *)

(** [stable P m]: whatever [m] does, returning or raising, the property
    [P] of the object it works on survives. *)
Definition stable {S} (P : S → Prop) {A} (m : St S A) : Prop :=
  ∀ s r s', P s → m s = (r, s') → P s'.

(** The column [k] holds [v] (or is absent, when [v] is [None]). *)
Definition holds (k : string) (v : option column) (df : DataFrame) : Prop :=
  columns df !! k = v.

(** The mileage step nulls what is above 500000 and what equals 0; a
    number below 0 passes both tests. *)
Definition mileage_kept (x : float) : Prop :=
  within_open 0 500000 x ∨ (x <? 0)%float = true.

(** The intermediate batches of a [clean_data] that returns. *)
Inductive chain (y : Z) (df df' : DataFrame) : Prop :=
| Chain (d1 d2 d3 d4 d5 d6 d7 d8 d9 d10 : DataFrame)
    (run1 : DataCleaner._remove_empty_columns df = (Ok tt, d1))
    (run2 : DataCleaner._clean_brands d1 = (Ok tt, d2))
    (run3 : DataCleaner._clean_models d2 = (Ok tt, d3))
    (run4 : DataCleaner._clean_fuel_types d3 = (Ok tt, d4))
    (run5 : DataCleaner._clean_years d4 = (Ok tt, d5))
    (run6 : DataCleaner._clean_mileage d5 = (Ok tt, d6))
    (run7 : DataCleaner._clean_engine_cc d6 = (Ok tt, d7))
    (run8 : DataCleaner._clean_colors d7 = (Ok tt, d8))
    (run9 : DataCleaner._validate_prices d8 = (Ok tt, d9))
    (run10 : DataCleaner._clean_phone_numbers d9 = (Ok tt, d10))
    (run11 : DataCleaner._add_derived_features y d10 = (Ok tt, df')).

(** What the brand step makes of one brand name. *)
Definition brand_name (s : string) : string :=
  let l := PyStr.strip (PyStr.lower s) in
  PyStr.title (match Series.assoc l DataCleaner.brand_mapping with
               | Some v => v
               | None => l
               end).

(** A batch with one "BMW". *)
Definition bmw_batch : DataFrame :=
  {| nrows := 1;
     columns := list_to_map
       [ ("brand", StrCol [Some "BMW"]); ("model", StrCol [Some "X5"]);
         ("year", NumCol [2020%float]) ] |}.

(** The batch has the column [k]. *)
Definition present (df : DataFrame) (k : string) : bool :=
  bool_decide (is_Some (columns df !! k)).

(** A computation that never raises and only appends to the log. *)
Definition logs_only (m : VehicleETLPipeline.ETL unit) : Prop :=
  ∀ w, ∃ l, m w = (Ok tt, VehicleETLPipeline.add_logs w l).

(** The log of [w] starts with [l0]. *)
Definition extends (l0 : list VehicleETLPipeline.log_record)
    (w : VehicleETLPipeline.world) : Prop :=
  ∃ l, VehicleETLPipeline.log w = (l0 ++ l)%list.

(** ** What a report holds *)

(** The error of a required column the batch lacks. *)
Definition missing_error (field : string) : string :=
  "Missing required field: " ++ field.

(** A finding is reported when it was counted at least once. *)
Definition warning_if (n : nat) (msg : string) : list string :=
  if bool_decide (0 < n) then [msg] else [].

Definition null_warning (df : DataFrame) (field : string) : list string :=
  match columns df !! field with
  | Some c =>
      let n := Series.count_true (Series.isnull c) in
      warning_if n (field ++ " has " ++ pretty n ++ " null values")
  | None => []
  end.

(** The values of a series below [lo] or above [hi]; a null is neither. *)
Definition outside (lo hi : float) (c : column) : nat :=
  match Series.as_num (DataValidator.dropna c) with
  | Ok xs => length (filter (λ x, (x <? lo)%float || (hi <? x)%float = true) xs)
  | Raise _ => 0
  end.

Definition range_warning (df : DataFrame) (rule : string * (float * float))
    : list string :=
  match columns df !! rule.1 with
  | Some c =>
      let n := outside rule.2.1 rule.2.2 c in
      warning_if n (rule.1 ++ " has " ++ pretty n ++ " values outside valid range")
  | None => []
  end.

Definition duplicate_warning (df : DataFrame) : list string :=
  match columns df !! "vehicle_id" with
  | Some c =>
      let n := Series.count_true (DataValidator.duplicated c) in
      warning_if n ("Found " ++ pretty n ++ " duplicate vehicle IDs")
  | None => []
  end.

(** The rows whose two prices are positive and whose rate, colones for a
    dollar, is suspicious. *)
Definition inconsistent (usd colones : column) : nat :=
  match Series.as_num usd, Series.as_num colones with
  | Ok us, Ok cs =>
      length (filter (λ p, (0 <? p.1)%float && (0 <? p.2)%float
                           && suspicious (p.2 / p.1)%float = true) (zip us cs))
  | _, _ => 0
  end.

Definition price_warning (df : DataFrame) : list string :=
  match columns df !! "price_usd", columns df !! "price_colones" with
  | Some usd, Some colones =>
      let n := inconsistent usd colones in
      warning_if n (pretty n ++ " records have inconsistent USD/Colones prices")
  | _, _ => []
  end.

(** The warnings of a batch, in the order the validator looks for them. *)
Definition expected_warnings (df : DataFrame) : list string :=
  (flat_map (null_warning df) DataValidator.required_fields
   ++ flat_map (range_warning df) DataValidator.validation_rules
   ++ duplicate_warning df ++ price_warning df)%list.

(** A batch with all the required columns and one finding of each kind:
    a listing without brand, a model year of 1900, an id that occurs
    twice and a price of 100 colones for a dollar. *)
Definition flawed_batch : DataFrame :=
  {| nrows := 2;
     columns := list_to_map
       [ ("url", StrCol [Some "https://crautos.com/a"; Some "https://crautos.com/b"]);
         ("vehicle_id", StrCol [Some "17"; Some "17"]);
         ("brand", StrCol [Some "Toyota"; None]);
         ("year", NumCol [2015; 1900]%float);
         ("price_usd", NumCol [10000; 10000]%float);
         ("price_colones", NumCol [5000000; 1000000]%float) ] |}.

(** * Facts about binary64 comparisons *)

Section FloatFacts.

Lemma SFcompare_swap (x y : spec_float) (c : comparison) :
  SFcompare x y = Some c → SFcompare y x = Some (CompOpp c).
Proof.
  destruct x as [sx|sx| |sx mx ex], y as [sy|sy| |sy my ey]; simpl;
    try discriminate;
    intros [= <-];
    repeat match goal with b : bool |- _ => destruct b end;
    simpl; try reflexivity.
  - rewrite (Z.compare_antisym ex ey).
    destruct (ex ?= ey)%Z; simpl; try reflexivity.
    f_equal. rewrite CompOpp_involutive.
    exact (Pos.compare_cont_antisym my mx Eq).
  - rewrite (Z.compare_antisym ex ey).
    destruct (ex ?= ey)%Z; simpl; try reflexivity.
    f_equal. symmetry. exact (Pos.compare_cont_antisym mx my Eq).
Qed.

Lemma SFcompare_refl (x : spec_float) :
  x ≠ S754_nan → SFcompare x x = Some Eq.
Proof.
  destruct x as [s|s| |s m e]; simpl; try congruence; intros _.
  - now destruct s.
  - change (IntDef.Z.compare e e) with (Z.compare e e).
    change (PosDef.Pos.compare_cont Eq m m) with (Pos.compare_cont Eq m m).
    rewrite (Z.compare_refl e), (Pos.compare_cont_refl m Eq). now destruct s.
Qed.

Lemma is_nan_true (x : float) : PrimFloat.is_nan x = true → Prim2SF x = S754_nan.
Proof.
  unfold PrimFloat.is_nan. rewrite FloatAxioms.eqb_spec. unfold SFeqb. intros H.
  destruct (Prim2SF x) as [s|s| |s m e] eqn:E; [| |done|];
    rewrite SFcompare_refl in H by done; discriminate.
Qed.

Lemma is_nan_false (x : float) : PrimFloat.is_nan x = false → Prim2SF x ≠ S754_nan.
Proof.
  unfold PrimFloat.is_nan. rewrite FloatAxioms.eqb_spec. unfold SFeqb. intros H E.
  rewrite E in H. discriminate.
Qed.

Lemma SFcompare_total (x y : spec_float) :
  x ≠ S754_nan → y ≠ S754_nan → ∃ c, SFcompare x y = Some c.
Proof.
  destruct x, y; simpl; try congruence; eauto.
Qed.

(** A number that is not below [a] is at least [a]. *)
Lemma not_ltb_leb (x a : float) :
  PrimFloat.is_nan x = false → PrimFloat.is_nan a = false →
  (x <? a)%float = false → (a <=? x)%float = true.
Proof.
  intros Hx Ha. rewrite ltb_spec, leb_spec. unfold SFltb, SFleb.
  destruct (SFcompare_total _ _ (is_nan_false _ Hx) (is_nan_false _ Ha)) as [c Hc].
  rewrite Hc, (SFcompare_swap _ _ _ Hc). now destruct c.
Qed.

(** A number that is not above [a] is at most [a]. *)
Lemma not_gtb_leb (x a : float) :
  PrimFloat.is_nan x = false → PrimFloat.is_nan a = false →
  (a <? x)%float = false → (x <=? a)%float = true.
Proof.
  intros Hx Ha. rewrite ltb_spec, leb_spec. unfold SFltb, SFleb.
  destruct (SFcompare_total _ _ (is_nan_false _ Ha) (is_nan_false _ Hx)) as [c Hc].
  rewrite Hc, (SFcompare_swap _ _ _ Hc). now destruct c.
Qed.

(** A number different from [a] is below or above it. *)
Lemma not_eqb_ltb (x a : float) :
  PrimFloat.is_nan x = false → PrimFloat.is_nan a = false →
  (x =? a)%float = false → (x <? a)%float = true ∨ (a <? x)%float = true.
Proof.
  intros Hx Ha. rewrite FloatAxioms.eqb_spec, !ltb_spec. unfold SFeqb, SFltb.
  destruct (SFcompare_total _ _ (is_nan_false _ Hx) (is_nan_false _ Ha)) as [c Hc].
  rewrite Hc, (SFcompare_swap _ _ _ Hc). destruct c; simpl; auto; discriminate.
Qed.

(** Comparisons with NaN are false, and a quotient with a NaN operand is
    NaN. *)
Lemma ltb_nan_l (x a : float) : PrimFloat.is_nan x = true → (x <? a)%float = false.
Proof.
  intros Hx. rewrite ltb_spec. unfold SFltb. now rewrite (is_nan_true _ Hx).
Qed.

Lemma ltb_nan_r (x a : float) : PrimFloat.is_nan x = true → (a <? x)%float = false.
Proof.
  intros Hx. rewrite ltb_spec. unfold SFltb. rewrite (is_nan_true _ Hx).
  now destruct (Prim2SF a).
Qed.

Lemma SF_is_nan (x : float) : Prim2SF x = S754_nan → PrimFloat.is_nan x = true.
Proof.
  intros E. unfold PrimFloat.is_nan. rewrite FloatAxioms.eqb_spec. unfold SFeqb.
  now rewrite E.
Qed.

Lemma div_nan (x y : float) :
  PrimFloat.is_nan x = true ∨ PrimFloat.is_nan y = true →
  PrimFloat.is_nan (x / y) = true.
Proof.
  intros H. apply SF_is_nan. rewrite div_spec. unfold SF64div, SFdiv.
  destruct H as [H|H]; rewrite (is_nan_true _ H); [done|].
  now destruct (Prim2SF x).
Qed.

End FloatFacts.

(** * The state monad: inversion and frame rules *)

Section Frames.
Context {S : Type}.
Implicit Types P : S → Prop.

Lemma bind_ok {A B} (m : St S A) (f : A → St S B) s b s' :
  bind m f s = (Ok b, s') → ∃ a s1, m s = (Ok a, s1) ∧ f a s1 = (Ok b, s').
Proof.
  unfold bind. destruct (m s) as [[a|e] s1]; [eauto|discriminate].
Qed.

Lemma stable_run P {A} (m : St S A) s r s' :
  stable P m → P s → m s = (r, s') → P s'.
Proof. intros H Hs E. exact (H s r s' Hs E). Qed.

Lemma stable_ret P {A} (a : A) : stable P (ret a).
Proof. intros s r s' H [= _ <-]. exact H. Qed.

Lemma stable_lift P {A} (x : result A) : stable P (lift x).
Proof. intros s r s' H [= _ <-]. exact H. Qed.

Lemma stable_bind P {A B} (m : St S A) (f : A → St S B) :
  stable P m → (∀ a, stable P (f a)) → stable P (bind m f).
Proof.
  intros Hm Hf s r s' H. unfold bind.
  destruct (m s) as [[a|e] s1] eqn:E.
  - intros Hfa. exact (Hf a s1 r s' (Hm _ _ _ H E) Hfa).
  - intros [= _ <-]. exact (Hm _ _ _ H E).
Qed.

Lemma stable_when P (b : bool) (m : St S unit) : stable P m → stable P (when b m).
Proof. destruct b; [done|]. intros _. apply stable_ret. Qed.

Lemma stable_and_also P (a b : St S bool) :
  stable P a → stable P b → stable P (and_also a b).
Proof.
  intros Ha Hb. apply stable_bind; [done|]. intros []; [done|apply stable_ret].
Qed.

Lemma stable_for_each P {A} (l : list A) (body : A → St S unit) :
  (∀ x, x ∈ l → stable P (body x)) → stable P (for_each l body).
Proof.
  induction l as [|x l IH]; simpl; intros H.
  - apply stable_ret.
  - apply stable_bind; [apply H; left|]. intros _. apply IH.
    intros y Hy. apply H. now right.
Qed.
End Frames.

(** Reading a [DataFrame] keeps every property of it; an assignment to
    column [k] keeps what is known of the other columns. *)

Lemma stable_has_column P k : stable P (has_column k).
Proof. intros s r s' H [= _ <-]. exact H. Qed.

Lemma stable_getitem P k : stable P (getitem k).
Proof.
  intros s r s' H. unfold getitem. destruct (columns s !! k); intros [= _ <-]; exact H.
Qed.

Lemma stable_len P : stable P len.
Proof. intros s r s' H [= _ <-]. exact H. Qed.

Lemma stable_setitem k v k' c : k ≠ k' → stable (holds k v) (setitem k' c).
Proof.
  intros Hne s r s' H [= _ <-]. unfold holds in *. simpl.
  now rewrite lookup_insert_ne.
Qed.

Lemma stable_remove_empty k v :
  k ∉ DataCleaner.empty_cols → stable (holds k v) DataCleaner._remove_empty_columns.
Proof.
  intros Hk s r s' H [= _ <-]. unfold holds in *. simpl.
  unfold DataCleaner.empty_cols in Hk.
  rewrite !not_elem_of_cons in Hk. destruct Hk as (?&?&?&?&?&_).
  now rewrite !lookup_delete_ne.
Qed.

(** Steps through a computation, leaving the side conditions on column
    names to [done]. *)
Ltac frame_step :=
  match goal with
  | |- stable _ (bind _ _) => apply stable_bind; [|intros ?]
  | |- stable _ (ret _) => apply stable_ret
  | |- stable _ (lift _) => apply stable_lift
  | |- stable _ (has_column _) => apply stable_has_column
  | |- stable _ (getitem _) => apply stable_getitem
  | |- stable _ len => apply stable_len
  | |- stable _ (setitem _ _) => apply stable_setitem; done
  | |- stable _ (when _ _) => apply stable_when
  | |- stable _ (and_also _ _) => apply stable_and_also
  | |- stable _ (match ?x with _ => _ end) => destruct x
  end.

Ltac frame := repeat (cbn [for_each]; frame_step).

Section CleanerFrames.
Import DataCleaner.
Variables (k : string) (v : option column).

Lemma keeps_clean_brands : k ≠ "brand" → stable (holds k v) _clean_brands.
Proof. intros. unfold _clean_brands. frame. Qed.

Lemma keeps_clean_models : k ≠ "model" → stable (holds k v) _clean_models.
Proof. intros. unfold _clean_models. frame. Qed.

Lemma keeps_clean_fuel_types : k ≠ "fuel_type" → stable (holds k v) _clean_fuel_types.
Proof. intros. unfold _clean_fuel_types. frame. Qed.

Lemma keeps_clean_years : k ≠ "year" → stable (holds k v) _clean_years.
Proof. intros. unfold _clean_years. frame. Qed.

Lemma keeps_clean_mileage : k ≠ "mileage" → stable (holds k v) _clean_mileage.
Proof. intros. unfold _clean_mileage. frame. Qed.

Lemma keeps_clean_engine_cc : k ≠ "engine_cc" → stable (holds k v) _clean_engine_cc.
Proof. intros. unfold _clean_engine_cc. frame. Qed.

Lemma keeps_clean_colors :
  k ≠ "color_exterior" → k ≠ "color_interior" → stable (holds k v) _clean_colors.
Proof. intros. unfold _clean_colors, color_mapping. frame. Qed.

Lemma keeps_validate_prices :
  k ≠ "exchange_rate" → k ≠ "price_flag" → stable (holds k v) _validate_prices.
Proof. intros. unfold _validate_prices. frame. Qed.

Lemma keeps_clean_phone_numbers :
  k ≠ "seller_phone" → stable (holds k v) _clean_phone_numbers.
Proof. intros. unfold _clean_phone_numbers. frame. Qed.

Lemma keeps_add_derived_features y :
  k ≠ "vehicle_age" → k ≠ "price_per_year" → k ≠ "is_luxury" →
  stable (holds k v) (_add_derived_features y).
Proof. intros. unfold _add_derived_features. frame. Qed.
End CleanerFrames.

(** * Running a computation on a given object, one statement at a time *)

Section Exec.
Context {S : Type}.

Lemma run_bind_assoc {A B C} (m : St S A) (f : A → St S B) (g : B → St S C) s :
  bind (bind m f) g s = bind m (λ a, bind (f a) g) s.
Proof. unfold bind. now destruct (m s) as [[a|e] s1]. Qed.

Lemma run_bind_ret {A B} (a : A) (f : A → St S B) s : bind (ret a) f s = f a s.
Proof. reflexivity. Qed.

Lemma run_bind_lift_ok {A B} (a : A) (f : A → St S B) s : bind (lift (Ok a)) f s = f a s.
Proof. reflexivity. Qed.

Lemma run_bind_lift_raise {A B} e (f : A → St S B) s :
  bind (lift (Raise e)) f s = (Raise e, s).
Proof. reflexivity. Qed.

Lemma run_bind_when_true {B} (m : St S unit) (f : unit → St S B) s :
  bind (when true m) f s = bind m f s.
Proof. reflexivity. Qed.

Lemma run_bind_when_false {B} (m : St S unit) (f : unit → St S B) s :
  bind (when false m) f s = f tt s.
Proof. reflexivity. Qed.

Lemma run_bind_ok {A B} (m : St S A) (f : A → St S B) s a s' :
  m s = (Ok a, s') → bind m f s = f a s'.
Proof. intros E. unfold bind. now rewrite E. Qed.

Lemma run_bind_raise {A B} (m : St S A) (f : A → St S B) s e s' :
  m s = (Raise e, s') → bind m f s = (Raise e, s').
Proof. intros E. unfold bind. now rewrite E. Qed.

Lemma run_when_true (m : St S unit) s : when true m s = m s.
Proof. reflexivity. Qed.

Lemma run_when_false (m : St S unit) s : when false m s = (Ok tt, s).
Proof. reflexivity. Qed.

Lemma run_ret {A} (a : A) (s : S) : ret a s = (Ok a, s).
Proof. reflexivity. Qed.

Lemma run_lift {A} (x : result A) (s : S) : lift x s = (x, s).
Proof. reflexivity. Qed.
End Exec.

Lemma run_bind_has_column {B} k (f : bool → DF B) df :
  bind (has_column k) f df = f (bool_decide (is_Some (columns df !! k))) df.
Proof. reflexivity. Qed.

Lemma run_bind_getitem {B} k c (f : column → DF B) df :
  columns df !! k = Some c → bind (getitem k) f df = f c df.
Proof. intros H. unfold bind, getitem. now rewrite H. Qed.

Lemma run_bind_setitem {B} k c (f : unit → DF B) df :
  bind (setitem k c) f df = f tt (set_column k c df).
Proof. reflexivity. Qed.

Lemma run_bind_len {B} (f : nat → DF B) df : bind len f df = f (nrows df) df.
Proof. reflexivity. Qed.

Lemma run_getitem k c df : columns df !! k = Some c → getitem k df = (Ok c, df).
Proof. intros H. unfold getitem. now rewrite H. Qed.

Lemma run_setitem k c df : setitem k c df = (Ok tt, set_column k c df).
Proof. reflexivity. Qed.

Lemma lookup_set_column_eq k c df : columns (set_column k c df) !! k = Some c.
Proof. apply lookup_insert_eq. Qed.

Lemma lookup_set_column_ne k k' c df :
  k ≠ k' → columns (set_column k c df) !! k' = columns df !! k'.
Proof. apply lookup_insert_ne. Qed.

Lemma has_column_some k c df :
  columns df !! k = Some c → bool_decide (is_Some (columns df !! k)) = true.
Proof. intros ->. reflexivity. Qed.

Lemma has_column_none k df :
  columns df !! k = None → bool_decide (is_Some (columns df !! k)) = false.
Proof. intros ->. reflexivity. Qed.

(** Looks a column up through the assignments made so far. *)
Ltac lookup_column :=
  repeat first
    [ rewrite lookup_set_column_eq
    | rewrite lookup_set_column_ne by done ];
  first [ reflexivity | eassumption ].

Ltac exec_step :=
  first
    [ rewrite run_bind_assoc
    | rewrite run_bind_ret
    | rewrite run_bind_lift_ok
    | rewrite run_bind_lift_raise
    | rewrite run_bind_when_true
    | rewrite run_bind_when_false
    | rewrite run_when_true
    | rewrite run_when_false
    | rewrite run_ret
    | rewrite run_lift
    | rewrite run_bind_has_column
    | rewrite run_bind_setitem
    | erewrite run_bind_getitem by lookup_column
    | erewrite run_getitem by lookup_column
    | rewrite run_setitem
    | erewrite has_column_some by lookup_column
    | rewrite has_column_none by (repeat rewrite lookup_set_column_ne by done; assumption) ].

Ltac exec := repeat exec_step.

(** The same on a hypothesis: the run is the left-hand side of [H]. *)
Ltac exec_in H :=
  repeat first
    [ rewrite run_bind_assoc in H
    | rewrite run_bind_ret in H
    | rewrite run_bind_lift_ok in H
    | rewrite run_bind_lift_raise in H
    | rewrite run_bind_when_true in H
    | rewrite run_bind_when_false in H
    | rewrite run_when_true in H
    | rewrite run_when_false in H
    | rewrite run_ret in H
    | rewrite run_lift in H
    | rewrite run_bind_has_column in H
    | rewrite run_bind_setitem in H
    | erewrite run_bind_getitem in H by lookup_column
    | erewrite run_getitem in H by lookup_column
    | rewrite run_setitem in H
    | erewrite has_column_some in H by lookup_column
    | rewrite has_column_none in H
        by (repeat rewrite lookup_set_column_ne by done; assumption) ].

(** * Range nulling *)

Section RangeNulling.
Import Series DataCleaner.

Lemma lookup_map {A B} (f : A → B) (l : list A) (i : nat) :
  map f l !! i = f <$> l !! i.
Proof. revert i. induction l as [|x l IH]; intros [|i]; simpl; auto. Qed.

Lemma or_mask_map {A} (f g : A → bool) (l : list A) :
  or_mask (map f l) (map g l) = map (λ x, f x || g x) l.
Proof. unfold or_mask. induction l; simpl; congruence. Qed.

Lemma lookup_mask_float (f : float → bool) (ys : list float) i v :
  zip_with mask_float (map f ys) ys !! i = Some v →
  ∃ y, ys !! i = Some y ∧ v = mask_float (f y) y.
Proof.
  revert i. induction ys as [|y ys IH]; intros [|i]; simpl; try discriminate.
  - intros [= <-]. eauto.
  - apply IH.
Qed.

Lemma lookup_mask_text (m : list bool) (xs : list (option string)) i v :
  Forall (λ x, x = None) xs → zip_with mask_text m xs !! i = Some v → v = None.
Proof.
  intros H. revert m i. induction H as [|x xs -> _ IH]; intros [|b m] [|i]; simpl;
    try discriminate.
  - intros [= <-]. now destruct b.
  - apply IH.
Qed.

Lemma masked_text_null (m : list bool) (xs : list (option string)) :
  Forall (λ x, x = None) xs → Forall (λ x, x = None) (zip_with mask_text m xs).
Proof.
  intros H. apply Forall_lookup. intros i v Hv. eapply lookup_mask_text; eauto.
Qed.

Lemma as_num_text xs ys :
  as_num (StrCol xs) = Ok ys → Forall (λ x, x = None) xs.
Proof.
  simpl. destruct (forallb _ xs) eqn:E; [|discriminate]. intros _.
  rewrite forallb_forall in E. apply Forall_forall. intros x Hx.
  apply list_elem_of_In in Hx. specialize (E x Hx). now destruct x.
Qed.

Lemma cells_text_null xs i c :
  Forall (λ x, x = None) xs → cells (StrCol xs) !! i = Some c → c = CNull.
Proof.
  intros H. simpl. rewrite lookup_map. destruct (xs !! i) as [x|] eqn:E; [|discriminate].
  rewrite Forall_forall in H. rewrite (H x) by (eapply list_elem_of_lookup_2; eauto).
  now intros [= <-].
Qed.

Lemma cells_num ys i c :
  cells (NumCol ys) !! i = Some c →
  ∃ y, ys !! i = Some y ∧ c = if PrimFloat.is_nan y then CNull else CNum y.
Proof.
  simpl. rewrite lookup_map. destruct (ys !! i); [|discriminate].
  intros [= <-]. eauto.
Qed.

(** A masked series in cells: a cell that is not null kept its number,
    and the mask was off for it. *)
Lemma masked_cell (f : float → bool) ys i c :
  cells (NumCol (zip_with mask_float (map f ys) ys)) !! i = Some c →
  c = CNull ∨ ∃ y, ys !! i = Some y ∧ c = CNum y
                   ∧ PrimFloat.is_nan y = false ∧ f y = false.
Proof.
  intros H. apply cells_num in H as (v & Hv & ->).
  apply lookup_mask_float in Hv as (y & Hy & ->).
  destruct (f y) eqn:Ef; simpl; [now left|].
  destruct (PrimFloat.is_nan y) eqn:En; [now left|]. right. eauto.
Qed.

(** What [df.loc[(s < lo) | (s > hi), col] = None] leaves in a series. *)
Lemma range_nulled (c : column) (lo hi : float) low high :
  PrimFloat.is_nan lo = false → PrimFloat.is_nan hi = false →
  lt c lo = Ok low → gt c hi = Ok high →
  ∀ i x, cells (set_null (or_mask low high) c) !! i = Some x →
         null_or (within lo hi) x.
Proof.
  intros Hlo Hhi. unfold lt, gt, rbind.
  destruct (as_num c) as [ys|] eqn:E; [|discriminate].
  intros [= <-] [= <-] i x. rewrite or_mask_map.
  assert (Hnum : cells (NumCol (zip_with mask_float
                          (map (λ y, (y <? lo)%float || (hi <? y)%float) ys) ys)) !! i
                 = Some x → null_or (within lo hi) x).
  { intros H. apply masked_cell in H as [->|(y & _ & -> & Hn & Hm)]; [now left|].
    right. exists y. split; [done|]. apply orb_false_elim in Hm as [H1 H2].
    split; [now apply not_ltb_leb | now apply not_gtb_leb]. }
  destruct c as [xs|xs|bs]; simpl in E.
  - injection E as <-. exact Hnum.
  - intros H. left. eapply cells_text_null; [|exact H].
    apply masked_text_null. eapply as_num_text. simpl. exact E.
  - injection E as <-. exact Hnum.
Qed.

Lemma clean_years_post df df' :
  _clean_years df = (Ok tt, df') → every_cell df' "year" (null_or (within 1950 2026)).
Proof.
  unfold _clean_years. intros H i x. unfold cell_at.
  destruct (columns df !! "year") as [c|] eqn:E; exec_in H.
  - destruct (lt c 1950) as [low|] eqn:E1; exec_in H; [|discriminate].
    destruct (gt c 2026) as [high|] eqn:E2; exec_in H; [|discriminate].
    injection H as <-. rewrite lookup_set_column_eq.
    now apply range_nulled.
  - injection H as <-. now rewrite E.
Qed.

Lemma clean_engine_cc_post df df' :
  _clean_engine_cc df = (Ok tt, df') →
  every_cell df' "engine_cc" (null_or (within 500 6000)).
Proof.
  unfold _clean_engine_cc. intros H i x. unfold cell_at.
  destruct (columns df !! "engine_cc") as [c|] eqn:E; exec_in H.
  - destruct (lt c 500) as [low|] eqn:E1; exec_in H; [|discriminate].
    destruct (gt c 6000) as [high|] eqn:E2; exec_in H; [|discriminate].
    injection H as <-. rewrite lookup_set_column_eq.
    now apply range_nulled.
  - injection H as <-. now rewrite E.
Qed.

Lemma mileage_nulled (c : column) high :
  gt c 500000 = Ok high →
  ∀ i x, cells (set_null (eq_num (set_null high c) 0) (set_null high c)) !! i = Some x →
         null_or mileage_kept x.
Proof.
  unfold gt, rbind. destruct (as_num c) as [ys|] eqn:E; [|discriminate].
  intros [= <-] i x.
  assert (Hnum : cells (NumCol (zip_with mask_float
            (map (λ y, (y =? 0)%float)
                 (zip_with mask_float (map (λ y, (500000 <? y)%float) ys) ys))
            (zip_with mask_float (map (λ y, (500000 <? y)%float) ys) ys))) !! i
          = Some x → null_or mileage_kept x).
  { intros H. apply masked_cell in H as [->|(v & Hv & -> & Hn & Hz)]; [now left|].
    apply lookup_mask_float in Hv as (y & _ & ->).
    destruct (500000 <? y)%float eqn:Hhi; simpl in *; [discriminate|].
    right. exists y. split; [done|].
    destruct (not_eqb_ltb y 0 Hn eq_refl Hz) as [Hneg|Hpos].
    - now right.
    - left. split; [done|]. now apply not_gtb_leb. }
  destruct c as [xs|xs|bs]; simpl in E.
  - injection E as <-. exact Hnum.
  - simpl. intros H. left. eapply cells_text_null; [|exact H].
    do 2 apply masked_text_null. eapply as_num_text. simpl. exact E.
  - injection E as <-. exact Hnum.
Qed.

Lemma clean_mileage_post df df' :
  _clean_mileage df = (Ok tt, df') → every_cell df' "mileage" (null_or mileage_kept).
Proof.
  unfold _clean_mileage. intros H i x. unfold cell_at.
  destruct (columns df !! "mileage") as [c|] eqn:E; exec_in H.
  - destruct (gt c 500000) as [high|] eqn:E1; exec_in H; [|discriminate].
    injection H as <-. rewrite lookup_set_column_eq.
    now apply mileage_nulled.
  - injection H as <-. now rewrite E.
Qed.

End RangeNulling.

(** * The cleaner as a chain of steps *)

Section CleanerChain.
Import DataCleaner.

Lemma clean_data_chain y df df' : clean_data y df = Ok df' → chain y df df'.
Proof.
  unfold clean_data. destruct (clean_steps y df) as [[[]|e] d] eqn:E; [|discriminate].
  intros [= ->]. unfold clean_steps in E.
  repeat match type of E with
         | bind _ _ _ = _ =>
             let a := fresh "a" in
             apply bind_ok in E as (a & ? & ? & E); destruct a
         end.
  econstructor; eassumption.
Qed.

Lemma kept {A} (m : DF A) k df r df' :
  m df = (r, df') → stable (holds k (columns df !! k)) m →
  columns df' !! k = columns df !! k.
Proof. intros E H. exact (H df r df' eq_refl E). Qed.

Lemma every_cell_same df df' k P :
  columns df' !! k = columns df !! k → every_cell df k P → every_cell df' k P.
Proof. unfold every_cell, cell_at. now intros ->. Qed.
End CleanerChain.

(** Carries the column of the goal back over the step that ran in [R]. *)
Ltac carry R :=
  rewrite (kept _ _ _ _ _ R)
    by (first
          [ apply stable_remove_empty; apply (bool_decide_unpack _); vm_compute; exact I
          | apply keeps_clean_brands
          | apply keeps_clean_models
          | apply keeps_clean_fuel_types
          | apply keeps_clean_years
          | apply keeps_clean_mileage
          | apply keeps_clean_engine_cc
          | apply keeps_clean_colors
          | apply keeps_validate_prices
          | apply keeps_clean_phone_numbers
          | apply keeps_add_derived_features ]; done).

Section RangeNullingOfCleanData.
Import Series DataCleaner.

(** C3, as stated, fails: a negative mileage is neither above 500000
    nor equal to 0, so the cleaner keeps it. *)
Lemma negative_mileage_survives :
  ∃ df', clean_data 2025 negative_mileage_batch = Ok df'
         ∧ cell_at df' "mileage" 0 = Some (CNum (-5))
         ∧ ¬ null_or (within_open 0 500000) (CNum (-5)).
Proof.
  eexists. split; [vm_compute; reflexivity|]. split; [vm_compute; reflexivity|].
  intros [H|(x & [= <-] & H & _)]; [discriminate|].
  vm_compute in H. discriminate.
Qed.

(** C3 (amended): in every batch the cleaner returns, [year] is null
    or within [1950, 2026], [engine_cc] is null or within [500, 6000], and
    [mileage] is null, within (0, 500000], or negative. *)
Theorem clean_data_ranges (y : Z) (df df' : DataFrame) :
  clean_data y df = Ok df' →
  every_cell df' "year" (null_or (within 1950 2026))
  ∧ every_cell df' "mileage" (null_or (λ x, within_open 0 500000 x ∨ (x <? 0)%float = true))
  ∧ every_cell df' "engine_cc" (null_or (within 500 6000)).
Proof.
  intros H. destruct (clean_data_chain _ _ _ H) as
    [d1 d2 d3 d4 d5 d6 d7 d8 d9 d10 R1 R2 R3 R4 R5 R6 R7 R8 R9 R10 R11].
  repeat split.
  - apply (every_cell_same d5); [|eapply clean_years_post; eassumption].
    carry R11.
    carry R10.
    carry R9.
    carry R8.
    carry R7.
    carry R6. done.
  - apply (every_cell_same d6); [|eapply clean_mileage_post; eassumption].
    carry R11.
    carry R10.
    carry R9.
    carry R8.
    carry R7. done.
  - apply (every_cell_same d7); [|eapply clean_engine_cc_post; eassumption].
    carry R11.
    carry R10.
    carry R9.
    carry R8. done.
Qed.

Lemma clean_data_ranges_witness :
  ∃ df', clean_data 2025 negative_mileage_batch = Ok df'
         ∧ every_cell df' "year" (null_or (within 1950 2026)).
Proof.
  eexists. split; [vm_compute; reflexivity|].
  apply (clean_data_ranges 2025 negative_mileage_batch). vm_compute. reflexivity.
Defined.
End RangeNullingOfCleanData.

(** * The price step *)

Section Prices.
Import Series DataCleaner.

Lemma validate_prices_run df cs us :
  columns df !! "price_colones" = Some (NumCol cs) →
  columns df !! "price_usd" = Some (NumCol us) →
  _validate_prices df =
    (Ok tt, set_column "price_flag" (BoolCol (map suspicious (zip_with PrimFloat.div cs us)))
              (set_column "exchange_rate" (NumCol (zip_with PrimFloat.div cs us)) df)).
Proof.
  intros Hc Hu. unfold _validate_prices, and_also. exec. cbn iota. exec.
  unfold div, lt, gt. repeat first [exec_step | progress cbn [rbind as_num]].
  now rewrite or_mask_map.
Qed.

Lemma lookup_rates cs us i c u :
  cs !! i = Some c → us !! i = Some u →
  zip_with PrimFloat.div cs us !! i = Some (c / u)%float.
Proof. intros Hc Hu. rewrite lookup_zip_with, Hc, Hu. reflexivity. Qed.

(** C10: with both price columns numeric the price step returns, never
    raises, whatever the prices are (zero included); every row that has
    the two prices gets its rate and its flag, and the flag of a row with
    a null price is [False]. *)
Theorem validate_prices_total (df : DataFrame) (cs us : list float) :
  columns df !! "price_colones" = Some (NumCol cs) →
  columns df !! "price_usd" = Some (NumCol us) →
  ∃ df' rates flags,
    _validate_prices df = (Ok tt, df')
    ∧ columns df' !! "exchange_rate" = Some (NumCol rates)
    ∧ columns df' !! "price_flag" = Some (BoolCol flags)
    ∧ ∀ i c u, cs !! i = Some c → us !! i = Some u →
        rates !! i = Some (c / u)%float
        ∧ flags !! i = Some (suspicious (c / u))
        ∧ (PrimFloat.is_nan c = true ∨ PrimFloat.is_nan u = true →
           flags !! i = Some false).
Proof.
  intros Hc Hu. do 3 eexists. split; [exact (validate_prices_run df cs us Hc Hu)|].
  split; [rewrite lookup_set_column_ne by done; apply lookup_set_column_eq|].
  split; [apply lookup_set_column_eq|].
  intros i c u Hi Hj. pose proof (lookup_rates _ _ _ _ _ Hi Hj) as Hr.
  split; [exact Hr|]. rewrite lookup_map, Hr. split; [reflexivity|].
  intros Hnan. simpl. f_equal. apply div_nan in Hnan. unfold suspicious.
  now rewrite (ltb_nan_l _ _ Hnan), (ltb_nan_r _ _ Hnan).
Qed.

Lemma validate_prices_total_witness :
  ∃ df' rates flags,
    _validate_prices negative_mileage_batch = (Ok tt, df')
    ∧ columns df' !! "exchange_rate" = Some (NumCol rates)
    ∧ columns df' !! "price_flag" = Some (BoolCol flags)
    ∧ ∀ i c u, [10000000%float] !! i = Some c → [20000%float] !! i = Some u →
        rates !! i = Some (c / u)%float
        ∧ flags !! i = Some (suspicious (c / u))
        ∧ (PrimFloat.is_nan c = true ∨ PrimFloat.is_nan u = true →
           flags !! i = Some false).
Proof.
  apply (validate_prices_total negative_mileage_batch); vm_compute; reflexivity.
Defined.

(** C1: in the batch the cleaner returns, the row of two positive prices
    carries exactly their quotient as exchange rate, and its flag is set
    iff that rate is below 400 or above 600. *)
Theorem exchange_rate_exact (y : Z) (df df' : DataFrame) (cs us : list float)
    (i : nat) (c u : float) :
  clean_data y df = Ok df' →
  columns df !! "price_colones" = Some (NumCol cs) →
  columns df !! "price_usd" = Some (NumCol us) →
  cs !! i = Some c → us !! i = Some u →
  (0 <? c)%float = true → (0 <? u)%float = true →
  ∃ flag,
    cell_at df' "price_flag" i = Some (CBool flag)
    ∧ (flag = true ↔ ((c / u <? 400)%float = true ∨ (600 <? c / u)%float = true))
    ∧ ∃ rates, columns df' !! "exchange_rate" = Some (NumCol rates)
               ∧ rates !! i = Some (c / u)%float.
Proof.
  intros H Hc Hu Hi Hj _ _. destruct (clean_data_chain _ _ _ H) as
    [d1 d2 d3 d4 d5 d6 d7 d8 d9 d10 R1 R2 R3 R4 R5 R6 R7 R8 R9 R10 R11].
  assert (Hc8 : columns d8 !! "price_colones" = Some (NumCol cs)).
  { carry R8. carry R7. carry R6. carry R5. carry R4. carry R3. carry R2. carry R1. done. }
  assert (Hu8 : columns d8 !! "price_usd" = Some (NumCol us)).
  { carry R8. carry R7. carry R6. carry R5. carry R4. carry R3. carry R2. carry R1. done. }
  rewrite (validate_prices_run _ _ _ Hc8 Hu8) in R9. injection R9 as <-.
  pose proof (lookup_rates _ _ _ _ _ Hi Hj) as Hr.
  exists (suspicious (c / u)). split; [|split].
  - unfold cell_at. carry R11. carry R10. rewrite lookup_set_column_eq.
    simpl. now rewrite !lookup_map, Hr.
  - unfold suspicious. rewrite orb_true_iff. reflexivity.
  - eexists. split; [|exact Hr]. carry R11. carry R10.
    rewrite lookup_set_column_ne by done. apply lookup_set_column_eq.
Qed.
End Prices.

Lemma exchange_rate_exact_witness :
  ∃ df', DataCleaner.clean_data 2025 negative_mileage_batch = Ok df'
    ∧ ∃ flag,
        cell_at df' "price_flag" 0 = Some (CBool flag)
        ∧ (flag = true ↔ ((10000000 / 20000 <? 400)%float = true
                          ∨ (600 <? 10000000 / 20000)%float = true))
        ∧ ∃ rates, columns df' !! "exchange_rate" = Some (NumCol rates)
                   ∧ rates !! 0 = Some (10000000 / 20000)%float.
Proof.
  eexists. split; [vm_compute; reflexivity|].
  apply (exchange_rate_exact 2025 negative_mileage_batch _
           [10000000%float] [20000%float] 0 10000000%float 20000%float);
    vm_compute; reflexivity.
Defined.

(** * Brands and the luxury flag *)

Section Brands.
Import Series DataCleaner.

Lemma clean_brands_run df df' bs :
  columns df !! "brand" = Some (StrCol bs) →
  _clean_brands df = (Ok tt, df') →
  columns df' !! "brand" = Some (StrCol (map (option_map brand_name) bs)).
Proof.
  intros Hb. unfold _clean_brands.
  repeat first [exec_step | progress cbn [str_map replace_values]].
  intros [= <-]. rewrite lookup_set_column_eq. f_equal. f_equal.
  rewrite !map_map. apply map_ext. now intros [s|].
Qed.

Lemma derived_luxury y df df' c :
  columns df !! "brand" = Some c →
  _add_derived_features y df = (Ok tt, df') →
  columns df' !! "is_luxury" = Some (BoolCol (isin c luxury_brands)).
Proof.
  intros Hb H. unfold _add_derived_features in H.
  apply bind_ok in H as (b1 & s1 & E1 & H).
  apply bind_ok in H as ([] & s2 & E2 & H).
  apply bind_ok in H as (b3 & s3 & E3 & H).
  apply bind_ok in H as ([] & s4 & E4 & H).
  assert (Hb4 : columns s4 !! "brand" = Some c).
  { rewrite (kept _ _ _ _ _ E4) by (unfold and_also; frame).
    rewrite (kept _ _ _ _ _ E3) by (unfold and_also; frame).
    rewrite (kept _ _ _ _ _ E2) by frame.
    rewrite (kept _ _ _ _ _ E1) by frame. exact Hb. }
  exec_in H. injection H as <-. apply lookup_set_column_eq.
Qed.

(** C9: a brand that lower-cases and trims to "bmw" (so "bmw", "BMW",
    " Bmw ") leaves the cleaner as "Bmw", because the title-casing runs
    after the alias map, and its row is not flagged as luxury although
    "BMW" is in the luxury set. *)
Theorem bmw_is_down_cased (y : Z) (df df' : DataFrame)
    (bs : list (option string)) (i : nat) (b : string) :
  clean_data y df = Ok df' →
  columns df !! "brand" = Some (StrCol bs) →
  bs !! i = Some (Some b) →
  PyStr.strip (PyStr.lower b) = "bmw" →
  cell_at df' "brand" i = Some (CStr "Bmw")
  ∧ cell_at df' "is_luxury" i = Some (CBool false)
  ∧ "BMW" ∈ luxury_brands.
Proof.
  intros H Hb Hi Hbmw. destruct (clean_data_chain _ _ _ H) as
    [d1 d2 d3 d4 d5 d6 d7 d8 d9 d10 R1 R2 R3 R4 R5 R6 R7 R8 R9 R10 R11].
  assert (Hb1 : columns d1 !! "brand" = Some (StrCol bs)) by (carry R1; done).
  pose proof (clean_brands_run _ _ _ Hb1 R2) as Hb2.
  assert (Hb10 : columns d10 !! "brand"
                 = Some (StrCol (map (option_map brand_name) bs))).
  { carry R10. carry R9. carry R8. carry R7. carry R6. carry R5. carry R4. carry R3.
    exact Hb2. }
  assert (Hname : map (option_map brand_name) bs !! i = Some (Some "Bmw")).
  { rewrite lookup_map, Hi. simpl. unfold brand_name. rewrite Hbmw. reflexivity. }
  split; [|split].
  - unfold cell_at. carry R11. rewrite Hb10. simpl. now rewrite lookup_map, Hname.
  - unfold cell_at. rewrite (derived_luxury _ _ _ _ Hb10 R11). simpl.
    rewrite lookup_map, lookup_map, Hname. reflexivity.
  - apply (bool_decide_unpack _). vm_compute. exact I.
Qed.

Lemma bmw_is_down_cased_witness :
  ∃ df', clean_data 2025 bmw_batch = Ok df'
    ∧ cell_at df' "brand" 0 = Some (CStr "Bmw")
    ∧ cell_at df' "is_luxury" 0 = Some (CBool false)
    ∧ "BMW" ∈ luxury_brands.
Proof.
  eexists. split; [vm_compute; reflexivity|].
  apply (bmw_is_down_cased 2025 bmw_batch _ [Some "BMW"] 0 "BMW");
    vm_compute; reflexivity.
Defined.
End Brands.

(** * The validator *)

Section Validator.
Import Series DataValidator.

Lemma stable_fold_fields P {A} (l : list A) r (body : A → report → DF report) :
  (∀ x r, stable P (body x r)) → stable P (fold_fields l r body).
Proof.
  intros H. revert r. induction l as [|x l IH]; intros r; simpl.
  - apply stable_ret.
  - apply stable_bind; [apply H|]. intros r'. apply IH.
Qed.

Lemma stable_validate_numeric_range P field lo hi :
  stable P (_validate_numeric_range field lo hi).
Proof. unfold _validate_numeric_range. frame. Qed.

Lemma stable_validate_price_consistency P : stable P _validate_price_consistency.
Proof. unfold _validate_price_consistency. frame. Qed.

Lemma stable_check_required P field r : stable P (check_required field r).
Proof. unfold check_required. frame. Qed.

Lemma stable_check_range P rule r : stable P (check_range rule r).
Proof.
  unfold check_range. destruct rule as [field [lo hi]].
  apply stable_bind; [frame|]. intros []; [|frame].
  apply stable_bind; [apply stable_validate_numeric_range|]. intros ?. frame.
Qed.

Lemma stable_check_duplicates P r : stable P (check_duplicates r).
Proof. unfold check_duplicates. frame. Qed.

Lemma stable_check_prices P r : stable P (check_prices r).
Proof.
  unfold check_prices. apply stable_bind; [frame|]. intros []; [|frame].
  apply stable_bind; [apply stable_validate_price_consistency|]. intros ?. frame.
Qed.

Lemma stable_validate_data P : stable P validate_data.
Proof.
  unfold validate_data. apply stable_bind; [frame|]. intros n.
  apply stable_bind; [apply stable_fold_fields, stable_check_required|]. intros r1.
  apply stable_bind; [apply stable_fold_fields, stable_check_range|]. intros r2.
  apply stable_bind; [apply stable_check_duplicates|]. intros r3.
  apply stable_check_prices.
Qed.

(** C6: a call of [validate_data] leaves the batch it was handed as it
    found it, whether it returns a report or raises. *)
Theorem validate_data_readonly (df : DataFrame) : snd (validate_data df) = df.
Proof.
  destruct (validate_data df) as [r df'] eqn:E. simpl.
  exact (stable_validate_data (λ s, s = df) df r df' eq_refl E).
Qed.

(** ** The pass/fail flag *)

Lemma run_same {A} (m : DF A) df r df' :
  (∀ P, stable P m) → m df = (r, df') → df' = df.
Proof. intros H E. exact (H (λ s, s = df) df r df' eq_refl E). Qed.

Lemma check_required_flag field r df r' df' :
  check_required field r df = (Ok r', df') →
  df' = df ∧ passed_validation r' = passed_validation r && present df field.
Proof.
  intros H. split; [eapply run_same; [|exact H]; intros; apply stable_check_required|].
  unfold check_required in H. rewrite run_bind_has_column in H. fold (present df field) in H.
  destruct (present df field); simpl in H.
  - apply bind_ok in H as (c & s1 & _ & H).
    destruct (existsb id (isnull c)).
    + apply bind_ok in H as (c' & s2 & _ & H). injection H as <- _. simpl.
      now rewrite andb_true_r.
    + injection H as <- _. now rewrite andb_true_r.
  - injection H as <- _. simpl. now rewrite andb_false_r.
Qed.

Lemma required_flag l r df r' df' :
  fold_fields l r check_required df = (Ok r', df') →
  df' = df ∧ passed_validation r' = passed_validation r && forallb (present df) l.
Proof.
  revert r df'. induction l as [|f l IH]; intros r df'; simpl.
  - intros [= <- <-]. now rewrite andb_true_r.
  - intros H. apply bind_ok in H as (r1 & s1 & H1 & H).
    apply check_required_flag in H1 as [-> E1].
    apply IH in H as [-> E]. split; [done|]. now rewrite E, E1, andb_assoc.
Qed.

Lemma check_range_flag rule r df r' df' :
  check_range rule r df = (Ok r', df') →
  passed_validation r' = passed_validation r.
Proof.
  unfold check_range. destruct rule as [field [lo hi]]. intros H.
  apply bind_ok in H as (b & s1 & _ & H). destruct b.
  - apply bind_ok in H as (n & s2 & _ & H). injection H as <- _.
    now destruct (bool_decide _).
  - now injection H as <- _.
Qed.

Lemma ranges_flag l r df r' df' :
  fold_fields l r check_range df = (Ok r', df') →
  passed_validation r' = passed_validation r.
Proof.
  revert r df. induction l as [|f l IH]; intros r df; simpl.
  - now intros [= <- <-].
  - intros H. apply bind_ok in H as (r1 & s1 & H1 & H).
    apply check_range_flag in H1. apply IH in H. congruence.
Qed.

Lemma check_duplicates_flag r df r' df' :
  check_duplicates r df = (Ok r', df') →
  passed_validation r' = passed_validation r.
Proof.
  unfold check_duplicates. intros H.
  apply bind_ok in H as (b & s1 & _ & H). destruct b.
  - apply bind_ok in H as (n & s2 & _ & H). injection H as <- _.
    now destruct (bool_decide _).
  - now injection H as <- _.
Qed.

Lemma check_prices_flag r df r' df' :
  check_prices r df = (Ok r', df') →
  passed_validation r' = passed_validation r.
Proof.
  unfold check_prices. intros H.
  apply bind_ok in H as (b & s1 & _ & H). destruct b.
  - apply bind_ok in H as (n & s2 & _ & H). injection H as <- _.
    now destruct (bool_decide _).
  - now injection H as <- _.
Qed.

Lemma validate_data_flag df r df' :
  validate_data df = (Ok r, df') →
  passed_validation r = forallb (present df) required_fields.
Proof.
  unfold validate_data. intros H.
  apply bind_ok in H as (n & s0 & H0 & H). injection H0 as <- <-.
  apply bind_ok in H as (r1 & s1 & H1 & H).
  apply bind_ok in H as (r2 & s2 & H2 & H).
  apply bind_ok in H as (r3 & s3 & H3 & H).
  apply required_flag in H1 as [-> E1]. apply ranges_flag in H2.
  apply check_duplicates_flag in H3. apply check_prices_flag in H.
  rewrite H, H3, H2, E1. reflexivity.
Qed.

Lemma forallb_false {A} (p : A → bool) (l : list A) :
  forallb p l = false ↔ ∃ x, x ∈ l ∧ p x = false.
Proof.
  induction l as [|x l IH]; simpl.
  - split; [discriminate|]. intros (x & Hx & _). now apply elem_of_nil in Hx.
  - rewrite andb_false_iff, IH. split.
    + intros [H|(y & Hy & H)]; [exists x|exists y]; split; auto; now constructor.
    + intros (y & Hy & H). apply elem_of_cons in Hy as [->|Hy]; eauto.
Qed.

Lemma passed_iff_missing (df df' : DataFrame) (r : report) :
  validate_data df = (Ok r, df') →
  (passed_validation r = false
   ↔ ∃ field, field ∈ required_fields ∧ columns df !! field = None).
Proof.
  intros H. rewrite (validate_data_flag _ _ _ H), forallb_false.
  split; intros (f & Hf & E); exists f; split; try done.
  - unfold present in E. destruct (columns df !! f); [discriminate|done].
  - unfold present. now rewrite E.
Qed.
End Validator.

(** * The validator returns on numeric columns *)

Section ValidatorTotal.
Import Series DataValidator.

Lemma check_required_total field r df :
  ∃ r', check_required field r df = (Ok r', df).
Proof.
  unfold check_required. rewrite run_bind_has_column.
  destruct (columns df !! field) as [c|] eqn:E; simpl; [|eauto].
  erewrite run_bind_getitem by eassumption.
  destruct (existsb id (isnull c)); [|eauto].
  erewrite run_bind_getitem by eassumption. eauto.
Qed.

Lemma required_total l r df :
  ∃ r', fold_fields l r check_required df = (Ok r', df).
Proof.
  revert r. induction l as [|f l IH]; intros r; simpl; [eauto|].
  destruct (check_required_total f r df) as [r1 E1].
  destruct (IH r1) as [r2 E2]. exists r2. unfold bind. now rewrite E1.
Qed.

Lemma validate_numeric_range_total field lo hi df :
  numeric_column df field →
  ∃ n, _validate_numeric_range field lo hi df = (Ok n, df).
Proof.
  intros Hnum. unfold _validate_numeric_range. rewrite run_bind_has_column.
  destruct (columns df !! field) as [c|] eqn:E; simpl; [|eauto].
  destruct (Hnum c E) as [xs ->].
  erewrite run_bind_getitem by eassumption.
  unfold lt, gt. cbn [dropna as_num rbind]. exec. eauto.
Qed.

Lemma check_range_total rule r df :
  numeric_column df (fst rule) → ∃ r', check_range rule r df = (Ok r', df).
Proof.
  destruct rule as [field [lo hi]]. simpl. intros Hnum. unfold check_range.
  rewrite run_bind_has_column. destruct (bool_decide _); [|eauto].
  destruct (validate_numeric_range_total field lo hi df Hnum) as [n E].
  rewrite (run_bind_ok _ _ _ _ _ E). eauto.
Qed.

Lemma ranges_total l r df :
  (∀ rule, rule ∈ l → numeric_column df (fst rule)) →
  ∃ r', fold_fields l r check_range df = (Ok r', df).
Proof.
  revert r. induction l as [|f l IH]; intros r H; simpl; [eauto|].
  destruct (check_range_total f r df) as [r1 E1]; [apply H; left|].
  destruct (IH r1) as [r2 E2]; [intros; apply H; now right|].
  exists r2. now rewrite (run_bind_ok _ _ _ _ _ E1).
Qed.

Lemma check_duplicates_total r df : ∃ r', check_duplicates r df = (Ok r', df).
Proof.
  unfold check_duplicates. rewrite run_bind_has_column.
  destruct (columns df !! "vehicle_id") as [c|] eqn:E; simpl; [|eauto].
  erewrite run_bind_getitem by eassumption. eauto.
Qed.

Lemma validate_price_consistency_total df :
  numeric_column df "price_usd" → numeric_column df "price_colones" →
  ∃ n, _validate_price_consistency df = (Ok n, df).
Proof.
  intros Hu Hc. unfold _validate_price_consistency, and_also. exec.
  destruct (columns df !! "price_usd") as [u|] eqn:Eu; simpl; [|eauto].
  exec. destruct (columns df !! "price_colones") as [c|] eqn:Ec; simpl; [|eauto].
  destruct (Hu u Eu) as [us ->]. destruct (Hc c Ec) as [cs ->].
  unfold gt, lt, div. repeat first [exec_step | progress cbn [rbind as_num select_col]].
  destruct (bool_decide _); [eauto|].
  repeat first [exec_step | progress cbn [rbind as_num select_col]]. eauto.
Qed.

Lemma check_prices_total r df :
  numeric_column df "price_usd" → numeric_column df "price_colones" →
  ∃ r', check_prices r df = (Ok r', df).
Proof.
  intros Hu Hc. unfold check_prices.
  destruct (validate_price_consistency_total df Hu Hc) as [n E].
  destruct (and_also (has_column "price_usd") (has_column "price_colones") df)
    as [[[]|e] s] eqn:Eb.
  - assert (s = df) as ->
      by (eapply run_same; [|exact Eb]; intros; apply stable_and_also; frame).
    rewrite (run_bind_ok _ _ _ _ _ Eb), (run_bind_ok _ _ _ _ _ E). eauto.
  - assert (s = df) as ->
      by (eapply run_same; [|exact Eb]; intros; apply stable_and_also; frame).
    rewrite (run_bind_ok _ _ _ _ _ Eb). eauto.
  - unfold and_also, bind, has_column in Eb. now destruct (bool_decide _).
Qed.

Lemma validate_data_total df :
  numeric_rules df → ∃ r, validate_data df = (Ok r, df).
Proof.
  intros Hnum. unfold validate_data. rewrite run_bind_len.
  destruct (required_total required_fields
              {| total_records := nrows df; validation_errors := [];
                 warnings := []; passed_validation := true |} df) as [r1 E1].
  rewrite (run_bind_ok _ _ _ _ _ E1).
  destruct (ranges_total validation_rules r1 df) as [r2 E2].
  { intros rule Hr. apply Hnum. apply list_elem_of_In, in_map, list_elem_of_In, Hr. }
  rewrite (run_bind_ok _ _ _ _ _ E2).
  destruct (check_duplicates_total r2 df) as [r3 E3].
  rewrite (run_bind_ok _ _ _ _ _ E3).
  apply check_prices_total; apply Hnum; apply (bool_decide_unpack _); vm_compute; exact I.
Qed.
End ValidatorTotal.

(** * The report of the validator *)

Section ValidatorReport.
Import Series DataValidator.

Lemma count_true_cons b m :
  count_true (b :: m) = if b then S (count_true m) else count_true m.
Proof. unfold count_true. rewrite filter_cons. now destruct b. Qed.

Lemma existsb_count m : existsb id m = bool_decide (0 < count_true m).
Proof.
  induction m as [|b m IH]; [done|]. rewrite count_true_cons. simpl.
  destruct b; simpl; [|exact IH].
  first [reflexivity | symmetry; apply bool_decide_eq_true_2; lia].
Qed.

Lemma count_or_mask {A} (f g : A → bool) (xs : list A) :
  count_true (or_mask (map f xs) (map g xs))
  = length (filter (λ x, f x || g x = true) xs).
Proof.
  induction xs as [|x xs IH]; [done|]. unfold or_mask in *. simpl.
  rewrite count_true_cons, filter_cons, IH.
  destruct (f x || g x); reflexivity.
Qed.

(** ** The errors *)

Lemma check_required_errors field r df r' df' :
  check_required field r df = (Ok r', df') →
  validation_errors r'
  = (validation_errors r
       ++ (if present df field then [] else [missing_error field]))%list
  ∧ total_records r' = total_records r.
Proof.
  unfold check_required. rewrite run_bind_has_column. fold (present df field).
  destruct (present df field); simpl.
  - intros H. apply bind_ok in H as (c & s1 & _ & H).
    destruct (existsb id (isnull c)).
    + apply bind_ok in H as (c' & s2 & _ & H). injection H as <- _. simpl.
      now rewrite app_nil_r.
    + injection H as <- _. now rewrite app_nil_r.
  - intros [= <- _]. done.
Qed.

Lemma required_errors l : ∀ r df r' df',
  fold_fields l r check_required df = (Ok r', df') →
  validation_errors r'
  = (validation_errors r
       ++ (missing_error <$> filter (λ f, present df f = false) l))%list
  ∧ total_records r' = total_records r.
Proof.
  induction l as [|f l IH]; intros r df r' df'; simpl.
  - intros [= <- <-]. now rewrite app_nil_r.
  - intros H. apply bind_ok in H as (r1 & s1 & H1 & H).
    pose proof (check_required_flag _ _ _ _ _ H1) as [-> _].
    apply check_required_errors in H1 as [E1 N1].
    apply IH in H as [E N]. rewrite E, E1, N, N1. split; [|done].
    rewrite filter_cons. destruct (present df f); simpl.
    + now rewrite app_nil_r.
    + now rewrite <- app_assoc.
Qed.

(** The part of a report only the required-field check writes. *)
Lemma check_range_errors rule r df r' df' :
  check_range rule r df = (Ok r', df') →
  validation_errors r' = validation_errors r ∧ total_records r' = total_records r.
Proof.
  unfold check_range. destruct rule as [field [lo hi]]. intros H.
  apply bind_ok in H as (b & s1 & _ & H). destruct b.
  - apply bind_ok in H as (n & s2 & _ & H). injection H as <- _.
    now destruct (bool_decide _).
  - now injection H as <- _.
Qed.

Lemma ranges_errors l : ∀ r df r' df',
  fold_fields l r check_range df = (Ok r', df') →
  validation_errors r' = validation_errors r ∧ total_records r' = total_records r.
Proof.
  induction l as [|f l IH]; intros r df r' df'; simpl.
  - now intros [= <- <-].
  - intros H. apply bind_ok in H as (r1 & s1 & H1 & H).
    apply check_range_errors in H1 as [E1 N1]. apply IH in H as [E N].
    split; congruence.
Qed.

Lemma check_duplicates_errors r df r' df' :
  check_duplicates r df = (Ok r', df') →
  validation_errors r' = validation_errors r ∧ total_records r' = total_records r.
Proof.
  unfold check_duplicates. intros H.
  apply bind_ok in H as (b & s1 & _ & H). destruct b.
  - apply bind_ok in H as (n & s2 & _ & H). injection H as <- _.
    now destruct (bool_decide _).
  - now injection H as <- _.
Qed.

Lemma check_prices_errors r df r' df' :
  check_prices r df = (Ok r', df') →
  validation_errors r' = validation_errors r ∧ total_records r' = total_records r.
Proof.
  unfold check_prices. intros H.
  apply bind_ok in H as (b & s1 & _ & H). destruct b.
  - apply bind_ok in H as (n & s2 & _ & H). injection H as <- _.
    now destruct (bool_decide _).
  - now injection H as <- _.
Qed.

Lemma validate_data_errors df r df' :
  validate_data df = (Ok r, df') →
  total_records r = nrows df
  ∧ validation_errors r
    = missing_error <$> filter (λ f, present df f = false) required_fields.
Proof.
  unfold validate_data. intros H.
  apply bind_ok in H as (n & s0 & H0 & H). injection H0 as <- <-.
  apply bind_ok in H as (r1 & s1 & H1 & H).
  apply bind_ok in H as (r2 & s2 & H2 & H).
  apply bind_ok in H as (r3 & s3 & H3 & H).
  apply required_errors in H1 as [E1 N1]. apply ranges_errors in H2 as [E2 N2].
  apply check_duplicates_errors in H3 as [E3 N3].
  apply check_prices_errors in H as [E N].
  simpl in *. split; [congruence|]. rewrite E, E3, E2, E1. reflexivity.
Qed.

(** ** The warnings *)

Lemma fold_fields_warnings {A} (body : A → report → DF report)
    (w : DataFrame → A → list string) (l : list A) :
  (∀ x r df r' df', body x r df = (Ok r', df') →
     df' = df ∧ warnings r' = (warnings r ++ w df x)%list) →
  ∀ r df r' df', fold_fields l r body df = (Ok r', df') →
    df' = df ∧ warnings r' = (warnings r ++ flat_map (w df) l)%list.
Proof.
  intros Hb. induction l as [|x l IH]; intros r df r' df'; simpl.
  - intros [= <- <-]. now rewrite app_nil_r.
  - intros H. apply bind_ok in H as (r1 & s1 & H1 & H).
    apply Hb in H1 as [-> E1]. apply IH in H as [-> E].
    split; [done|]. now rewrite E, E1, <- app_assoc.
Qed.

Lemma check_required_warnings field r df r' df' :
  check_required field r df = (Ok r', df') →
  df' = df ∧ warnings r' = (warnings r ++ null_warning df field)%list.
Proof.
  intros H. split; [exact (proj1 (check_required_flag _ _ _ _ _ H))|].
  revert H. unfold check_required, null_warning. rewrite run_bind_has_column.
  destruct (columns df !! field) as [c|] eqn:E; simpl.
  - erewrite run_bind_getitem by eassumption. rewrite existsb_count.
    unfold warning_if. destruct (bool_decide _).
    + erewrite run_bind_getitem by eassumption. now intros [= <- _].
    + intros [= <- _]. now rewrite app_nil_r.
  - intros [= <- _]. simpl. now rewrite app_nil_r.
Qed.

Lemma validate_numeric_range_count field lo hi df c n df' :
  columns df !! field = Some c →
  _validate_numeric_range field lo hi df = (Ok n, df') → n = outside lo hi c.
Proof.
  intros E. unfold _validate_numeric_range, outside, lt, gt.
  rewrite run_bind_has_column, E. simpl.
  erewrite run_bind_getitem by eassumption.
  destruct (as_num (dropna c)) as [xs|e]; simpl; [|discriminate].
  exec. intros [= <- _]. apply count_or_mask.
Qed.

Lemma check_range_warnings rule r df r' df' :
  check_range rule r df = (Ok r', df') →
  df' = df ∧ warnings r' = (warnings r ++ range_warning df rule)%list.
Proof.
  intros H. split.
  { eapply run_same; [|exact H]. intros; apply stable_check_range. }
  revert H. unfold check_range, range_warning. destruct rule as [field [lo hi]].
  rewrite run_bind_has_column. simpl.
  destruct (columns df !! field) as [c|] eqn:E; simpl.
  - intros H. apply bind_ok in H as (n & s1 & H1 & H).
    apply (validate_numeric_range_count _ _ _ _ _ _ _ E) in H1 as ->.
    injection H as <- _. unfold warning_if. destruct (bool_decide _); [done|].
    now rewrite app_nil_r.
  - intros [= <- _]. now rewrite app_nil_r.
Qed.

Lemma check_duplicates_warnings r df r' df' :
  check_duplicates r df = (Ok r', df') →
  warnings r' = (warnings r ++ duplicate_warning df)%list.
Proof.
  unfold check_duplicates, duplicate_warning. rewrite run_bind_has_column.
  destruct (columns df !! "vehicle_id") as [c|] eqn:E; simpl.
  - erewrite run_bind_getitem by eassumption. intros [= <- _].
    unfold warning_if. destruct (bool_decide _); [done|]. now rewrite app_nil_r.
  - intros [= <- _]. now rewrite app_nil_r.
Qed.

Lemma select_map {A B} (f : A → B) m (xs : list A) :
  select m (map f xs) = map f (select m xs).
Proof.
  revert xs. induction m as [|b m IH]; intros [|x xs]; simpl; try done.
  destruct b; simpl; now rewrite IH.
Qed.

Lemma forallb_select {A} (p : A → bool) m (xs : list A) :
  forallb p xs = true → forallb p (select m xs) = true.
Proof.
  revert xs. induction m as [|b m IH]; intros [|x xs]; simpl; try done.
  intros [Hx H]%andb_prop. destruct b; simpl; [rewrite Hx; simpl|]; auto.
Qed.

Lemma as_num_select m c xs :
  as_num c = Ok xs → as_num (select_col m c) = Ok (select m xs).
Proof.
  destruct c as [ys|ys|bs]; simpl.
  - now intros [= ->].
  - destruct (forallb _ ys) eqn:E; [|discriminate]. intros [= <-].
    rewrite (forallb_select _ _ _ E). now rewrite select_map.
  - intros [= <-]. now rewrite select_map.
Qed.

Lemma select_none {A} m (xs : list A) : count_true m = 0 → select m xs = [].
Proof.
  revert xs. induction m as [|b m IH]; intros [|x xs]; simpl; try done.
  rewrite count_true_cons. destruct b; [discriminate|]. auto.
Qed.

(** The rates the validator looks at are those of the rows with two
    positive prices. *)
Lemma count_rates (us cs : list float) :
  let mask := and_mask (map (λ x, 0 <? x)%float us) (map (λ x, 0 <? x)%float cs) in
  length (filter (λ x, suspicious x = true)
            (zip_with PrimFloat.div (select mask cs) (select mask us)))
  = length (filter (λ p, (0 <? p.1)%float && (0 <? p.2)%float
                         && suspicious (p.2 / p.1)%float = true) (zip us cs)).
Proof.
  unfold and_mask. revert cs. induction us as [|u us IH]; intros [|c cs]; simpl; try done.
  rewrite (filter_cons _ (u, c)). simpl.
  destruct (0 <? u)%float; simpl; [|apply IH].
  destruct (0 <? c)%float; simpl; [|apply IH].
  rewrite filter_cons. destruct (suspicious (c / u)); simpl; [|apply IH].
  now rewrite IH.
Qed.

Lemma validate_price_consistency_count df usd colones n df' :
  columns df !! "price_usd" = Some usd →
  columns df !! "price_colones" = Some colones →
  _validate_price_consistency df = (Ok n, df') → n = inconsistent usd colones.
Proof.
  intros Eu Ec. unfold _validate_price_consistency, and_also, inconsistent, gt, lt, div.
  exec. cbn [negb]. exec.
  destruct (as_num usd) as [us|e] eqn:Hu; cbn [rbind]; exec; [|discriminate].
  destruct (as_num colones) as [cs|e] eqn:Hc; cbn [rbind]; exec; [|discriminate].
  rewrite <- count_rates. cbv zeta.
  set (mask := and_mask _ _).
  destruct (bool_decide (count_true mask = 0)) eqn:E.
  - apply bool_decide_eq_true in E. intros [= <- _].
    now rewrite (select_none _ cs E).
  - rewrite (as_num_select mask _ _ Hc), (as_num_select mask _ _ Hu).
    repeat first [exec_step | progress cbn [rbind as_num]].
    intros [= <- _]. unfold suspicious. apply count_or_mask.
Qed.

Lemma check_prices_warnings r df r' df' :
  check_prices r df = (Ok r', df') →
  warnings r' = (warnings r ++ price_warning df)%list.
Proof.
  unfold check_prices, price_warning, and_also. exec.
  destruct (columns df !! "price_usd") as [usd|] eqn:Eu; simpl.
  - exec. destruct (columns df !! "price_colones") as [colones|] eqn:Ec; simpl.
    + intros H. apply bind_ok in H as (n & s1 & H1 & H).
      apply (validate_price_consistency_count _ _ _ _ _ Eu Ec) in H1 as ->.
      injection H as <- _. unfold warning_if. destruct (bool_decide _); [done|].
      now rewrite app_nil_r.
    + intros [= <- _]. now rewrite app_nil_r.
  - intros [= <- _]. now rewrite app_nil_r.
Qed.

Lemma validate_data_warnings df r df' :
  validate_data df = (Ok r, df') → warnings r = expected_warnings df.
Proof.
  unfold validate_data, expected_warnings. intros H.
  apply bind_ok in H as (n & s0 & H0 & H). injection H0 as <- <-.
  apply bind_ok in H as (r1 & s1 & H1 & H).
  apply bind_ok in H as (r2 & s2 & H2 & H).
  apply bind_ok in H as (r3 & s3 & H3 & H).
  apply (fold_fields_warnings check_required null_warning) in H1 as [-> E1];
    [|apply check_required_warnings].
  apply (fold_fields_warnings check_range range_warning) in H2 as [-> E2];
    [|apply check_range_warnings].
  pose proof (run_same _ _ _ _ (λ P, stable_check_duplicates P r2) H3) as ->.
  apply check_duplicates_warnings in H3.
  apply check_prices_warnings in H.
  rewrite H, H3, E2, E1. simpl. now rewrite <- !app_assoc.
Qed.

Lemma flawed_batch_numeric : numeric_rules flawed_batch.
Proof.
  intros k Hk c. cbn in Hk.
  repeat (apply elem_of_cons in Hk as [->|Hk]); try (now apply elem_of_nil in Hk);
    vm_compute; intros [= <-]; eauto.
Qed.

(** C7: the validator returns a report on every batch whose numeric
    columns hold numbers.  In every report it returns,
    [passed_validation] is [False] exactly when one of the five required
    columns is absent from the batch, [validation_errors] holds one
    message for each absent required column and nothing else, and
    [warnings] holds, in this order, the null counts of the required
    columns that are present, the counts of values outside the range of
    each rule, the count of repeated vehicle ids and the count of
    inconsistent prices, each when it is positive: nulls, values out of
    range, duplicates and inconsistent prices are reported as warnings
    and leave the flag and the errors as they are. *)
Theorem passed_validation_iff (df : DataFrame) :
  (numeric_rules df → ∃ r, validate_data df = (Ok r, df))
  ∧ (∀ r df',
       validate_data df = (Ok r, df') →
       (passed_validation r = false
        ↔ ∃ field, field ∈ required_fields ∧ columns df !! field = None)
       ∧ validation_errors r
         = missing_error <$> filter (λ f, present df f = false) required_fields
       ∧ warnings r = expected_warnings df).
Proof.
  split; [apply validate_data_total|]. intros r df' H. split; [|split].
  - exact (passed_iff_missing _ _ _ H).
  - exact (proj2 (validate_data_errors _ _ _ H)).
  - exact (validate_data_warnings _ _ _ H).
Qed.

Lemma passed_validation_iff_witness :
  (∃ r, validate_data flawed_batch = (Ok r, flawed_batch)
        ∧ passed_validation r = true
        ∧ validation_errors r = []
        ∧ warnings r = [ "brand has 1 null values";
                         "year has 1 values outside valid range";
                         "Found 1 duplicate vehicle IDs";
                         "1 records have inconsistent USD/Colones prices" ])
  ∧ (∃ r, validate_data no_url_batch = (Ok r, no_url_batch)
          ∧ passed_validation r = false
          ∧ validation_errors r = ["Missing required field: url"]
          ∧ warnings r = []).
Proof.
  split.
  - destruct (proj1 (passed_validation_iff flawed_batch) flawed_batch_numeric)
      as [r E].
    exists r. split; [exact E|].
    destruct (proj2 (passed_validation_iff flawed_batch) r _ E) as (Hf & He & Hw).
    split; [|split].
    + destruct (passed_validation r); [done|].
      destruct (proj1 Hf eq_refl) as (f & Hf' & Hn). exfalso. revert Hn. cbn in Hf'.
      repeat (apply elem_of_cons in Hf' as [->|Hf']);
        try (now apply elem_of_nil in Hf'); vm_compute; discriminate.
    + rewrite He. vm_compute. reflexivity.
    + rewrite Hw. vm_compute. reflexivity.
  - eexists. split; [vm_compute; reflexivity|].
    edestruct (proj2 (passed_validation_iff no_url_batch)) as (Hf & He & Hw);
      [vm_compute; reflexivity|].
    split; [|split].
    + apply Hf. exists "url". split; [left|vm_compute; reflexivity].
    + rewrite He. vm_compute. reflexivity.
    + rewrite Hw. vm_compute. reflexivity.
Defined.
End ValidatorReport.

(** * Schemas: the cleaner returns on a batch of the raw store *)

Section Schemas.
Import Series DataCleaner.

Lemma kinds_lookup df k : kinds df !! k = col_kind <$> columns df !! k.
Proof. apply lookup_fmap. Qed.

Lemma kinds_str df k :
  kinds df !! k = Some KStr → ∃ xs, columns df !! k = Some (StrCol xs).
Proof.
  rewrite kinds_lookup. destruct (columns df !! k) as [[]|]; try discriminate. eauto.
Qed.

Lemma kinds_num df k :
  kinds df !! k = Some KNum → ∃ xs, columns df !! k = Some (NumCol xs).
Proof.
  rewrite kinds_lookup. destruct (columns df !! k) as [[]|]; try discriminate. eauto.
Qed.

Lemma kinds_some df k K : kinds df !! k = Some K → is_Some (columns df !! k).
Proof. rewrite kinds_lookup. destruct (columns df !! k); [eauto|discriminate]. Qed.

Lemma kinds_set_column k c df :
  kinds (set_column k c df) = <[k := col_kind c]> (kinds df).
Proof. apply fmap_insert. Qed.

Lemma kinds_set_same k c df :
  kinds df !! k = Some (col_kind c) → kinds (set_column k c df) = kinds df.
Proof. intros H. rewrite kinds_set_column. now apply insert_id. Qed.

Lemma kinds_numeric_column df k :
  kinds df !! k = Some KNum ∨ kinds df !! k = None → numeric_column df k.
Proof.
  intros [H|H] c Hc; rewrite kinds_lookup, Hc in H; [|discriminate].
  destruct c; try discriminate. eauto.
Qed.

Lemma remove_empty_kinds df :
  ∃ df', _remove_empty_columns df = (Ok tt, df') ∧ nrows df' = nrows df
         ∧ kinds df' = foldr delete (kinds df) empty_cols.
Proof.
  eexists. split; [reflexivity|]. split; [reflexivity|].
  unfold kinds. simpl. now rewrite !fmap_delete.
Qed.

Lemma clean_brands_kinds df :
  kinds df !! "brand" = Some KStr →
  ∃ df', _clean_brands df = (Ok tt, df') ∧ nrows df' = nrows df ∧ kinds df' = kinds df.
Proof.
  intros H. destruct (kinds_str _ _ H) as [bs Hb]. unfold _clean_brands.
  repeat first [exec_step | progress cbn [str_map replace_values]].
  eexists. split; [reflexivity|]. split; [reflexivity|].
  rewrite !kinds_set_column, !insert_insert_eq. now apply insert_id.
Qed.

Lemma clean_models_kinds df :
  kinds df !! "model" = Some KStr → kinds df !! "brand" = Some KStr →
  ∃ df', _clean_models df = (Ok tt, df') ∧ nrows df' = nrows df ∧ kinds df' = kinds df.
Proof.
  intros H Hbk. destruct (kinds_str _ _ H) as [ms Hm].
  destruct (kinds_str _ _ Hbk) as [bs Hb]. unfold _clean_models.
  repeat first [exec_step | progress cbn [str_map replace_empty]].
  eexists. split; [reflexivity|]. split; [reflexivity|].
  rewrite !kinds_set_column, !insert_insert_eq. now apply insert_id.
Qed.

Lemma clean_fuel_types_kinds df :
  kinds df !! "fuel_type" = Some KStr →
  ∃ df', _clean_fuel_types df = (Ok tt, df') ∧ nrows df' = nrows df
         ∧ kinds df' = kinds df.
Proof.
  intros H. destruct (kinds_str _ _ H) as [fs Hf]. unfold _clean_fuel_types.
  repeat first [exec_step | progress cbn [str_map replace_empty replace_values]].
  eexists. split; [reflexivity|]. split; [reflexivity|].
  rewrite !kinds_set_column, !insert_insert_eq. now apply insert_id.
Qed.

Lemma clean_years_kinds df :
  kinds df !! "year" = Some KNum →
  ∃ df', _clean_years df = (Ok tt, df') ∧ nrows df' = nrows df ∧ kinds df' = kinds df.
Proof.
  intros H. destruct (kinds_num _ _ H) as [ys Hy]. unfold _clean_years, lt, gt.
  repeat first [exec_step | progress cbn [rbind as_num set_null]].
  eexists. split; [reflexivity|]. split; [reflexivity|].
  rewrite !kinds_set_column. now apply insert_id.
Qed.

Lemma clean_mileage_kinds df :
  kinds df !! "mileage" = Some KNum →
  ∃ df', _clean_mileage df = (Ok tt, df') ∧ nrows df' = nrows df
         ∧ kinds df' = kinds df.
Proof.
  intros H. destruct (kinds_num _ _ H) as [ys Hy]. unfold _clean_mileage, lt, gt.
  repeat first [exec_step | progress cbn [rbind as_num set_null eq_num]].
  eexists. split; [reflexivity|]. split; [reflexivity|].
  rewrite !kinds_set_column, !insert_insert_eq. now apply insert_id.
Qed.

Lemma clean_engine_cc_kinds df :
  kinds df !! "engine_cc" = Some KNum →
  ∃ df', _clean_engine_cc df = (Ok tt, df') ∧ nrows df' = nrows df
         ∧ kinds df' = kinds df.
Proof.
  intros H. destruct (kinds_num _ _ H) as [ys Hy]. unfold _clean_engine_cc, lt, gt.
  repeat first [exec_step | progress cbn [rbind as_num set_null]].
  eexists. split; [reflexivity|]. split; [reflexivity|].
  rewrite !kinds_set_column. now apply insert_id.
Qed.

Lemma clean_colors_kinds df :
  kinds df !! "color_exterior" = Some KStr → kinds df !! "color_interior" = Some KStr →
  ∃ df', _clean_colors df = (Ok tt, df') ∧ nrows df' = nrows df ∧ kinds df' = kinds df.
Proof.
  intros He Hi. destruct (kinds_str _ _ He) as [es Hes].
  destruct (kinds_str _ _ Hi) as [ins Hins]. unfold _clean_colors, color_mapping.
  cbn [for_each].
  repeat first [exec_step | progress cbn [str_map]].
  eexists. split; [reflexivity|]. split; [reflexivity|].
  rewrite !kinds_set_column. cbn [col_kind]. rewrite !insert_insert_eq.
  rewrite (insert_id _ "color_exterior") by done. now apply insert_id.
Qed.

Lemma validate_prices_kinds df :
  kinds df !! "price_colones" = Some KNum → kinds df !! "price_usd" = Some KNum →
  ∃ df', _validate_prices df = (Ok tt, df') ∧ nrows df' = nrows df
         ∧ kinds df' = <["price_flag" := KBool]> (<["exchange_rate" := KNum]> (kinds df)).
Proof.
  intros Hc Hu. destruct (kinds_num _ _ Hc) as [cs Hcs].
  destruct (kinds_num _ _ Hu) as [us Hus].
  eexists. split; [exact (validate_prices_run df cs us Hcs Hus)|].
  split; [reflexivity|]. now rewrite !kinds_set_column.
Qed.

Lemma clean_phone_numbers_kinds df :
  kinds df !! "seller_phone" = Some KStr →
  ∃ df', _clean_phone_numbers df = (Ok tt, df') ∧ nrows df' = nrows df
         ∧ kinds df' = kinds df.
Proof.
  intros H. destruct (kinds_str _ _ H) as [ps Hp]. unfold _clean_phone_numbers.
  repeat first [exec_step | progress cbn [str_map]].
  eexists. split; [reflexivity|]. split; [reflexivity|].
  rewrite !kinds_set_column. now apply insert_id.
Qed.

Lemma add_derived_features_kinds y df :
  kinds df !! "year" = Some KNum → kinds df !! "price_usd" = Some KNum →
  kinds df !! "brand" = Some KStr →
  ∃ df', _add_derived_features y df = (Ok tt, df') ∧ nrows df' = nrows df
         ∧ kinds df' = <["is_luxury" := KBool]> (<["price_per_year" := KNum]>
                         (<["vehicle_age" := KNum]> (kinds df))).
Proof.
  intros Hy Hu Hb. destruct (kinds_num _ _ Hy) as [ys Hys].
  destruct (kinds_num _ _ Hu) as [us Hus]. destruct (kinds_str _ _ Hb) as [bs Hbs].
  unfold _add_derived_features, and_also, rsub, add, div.
  repeat first [exec_step | progress cbn [rbind as_num] | progress cbn iota].
  eexists. split; [reflexivity|]. split; [reflexivity|].
  now rewrite !kinds_set_column.
Qed.

(** A batch with the schema of the raw store goes through every step. *)
Lemma clean_steps_raw y df :
  raw_schema df →
  ∃ df', clean_steps y df = (Ok tt, df') ∧ nrows df' = nrows df
         ∧ kinds df' = clean_kinds.
Proof.
  unfold raw_schema. intros Hraw. unfold clean_steps.
  destruct (remove_empty_kinds df) as (d1 & R1 & N1 & K1). rewrite Hraw in K1.
  rewrite (run_bind_ok _ _ _ _ _ R1).
  destruct (clean_brands_kinds d1) as (d2 & R2 & N2 & K2);
    [rewrite K1; vm_compute; reflexivity|]. rewrite K1 in K2.
  rewrite (run_bind_ok _ _ _ _ _ R2).
  destruct (clean_models_kinds d2) as (d3 & R3 & N3 & K3);
    [rewrite K2; vm_compute; reflexivity..|]. rewrite K2 in K3.
  rewrite (run_bind_ok _ _ _ _ _ R3).
  destruct (clean_fuel_types_kinds d3) as (d4 & R4 & N4 & K4);
    [rewrite K3; vm_compute; reflexivity|]. rewrite K3 in K4.
  rewrite (run_bind_ok _ _ _ _ _ R4).
  destruct (clean_years_kinds d4) as (d5 & R5 & N5 & K5);
    [rewrite K4; vm_compute; reflexivity|]. rewrite K4 in K5.
  rewrite (run_bind_ok _ _ _ _ _ R5).
  destruct (clean_mileage_kinds d5) as (d6 & R6 & N6 & K6);
    [rewrite K5; vm_compute; reflexivity|]. rewrite K5 in K6.
  rewrite (run_bind_ok _ _ _ _ _ R6).
  destruct (clean_engine_cc_kinds d6) as (d7 & R7 & N7 & K7);
    [rewrite K6; vm_compute; reflexivity|]. rewrite K6 in K7.
  rewrite (run_bind_ok _ _ _ _ _ R7).
  destruct (clean_colors_kinds d7) as (d8 & R8 & N8 & K8);
    [rewrite K7; vm_compute; reflexivity..|]. rewrite K7 in K8.
  rewrite (run_bind_ok _ _ _ _ _ R8).
  destruct (validate_prices_kinds d8) as (d9 & R9 & N9 & K9);
    [rewrite K8; vm_compute; reflexivity..|]. rewrite K8 in K9.
  rewrite (run_bind_ok _ _ _ _ _ R9).
  destruct (clean_phone_numbers_kinds d9) as (d10 & R10 & N10 & K10);
    [rewrite K9; vm_compute; reflexivity|]. rewrite K9 in K10.
  rewrite (run_bind_ok _ _ _ _ _ R10).
  destruct (add_derived_features_kinds y d10) as (d11 & R11 & N11 & K11);
    [rewrite K10; vm_compute; reflexivity..|]. rewrite K10 in K11.
  exists d11. split; [exact R11|]. split; [congruence|exact K11].
Qed.

Lemma clean_data_raw y df :
  raw_schema df →
  ∃ df', clean_data y df = Ok df' ∧ nrows df' = nrows df ∧ kinds df' = clean_kinds.
Proof.
  intros H. destruct (clean_steps_raw y df H) as (df' & R & N & K).
  exists df'. unfold clean_data. now rewrite R.
Qed.
End Schemas.

(** * The full pipeline run *)

Section Pipeline.
Import VehicleETLPipeline.

(** ** Logging never raises and only appends *)

Lemma add_logs_nil w : add_logs w [] = w.
Proof. destruct w. unfold add_logs. simpl. now rewrite app_nil_r. Qed.

Lemma add_logs_app w l1 l2 : add_logs (add_logs w l1) l2 = add_logs w (l1 ++ l2)%list.
Proof. unfold add_logs. simpl. now rewrite app_assoc. Qed.

Lemma logs_only_ret : logs_only (ret tt).
Proof. intros w. exists []. now rewrite add_logs_nil. Qed.

Lemma logs_only_logger l msg : logs_only (logger l msg).
Proof. intros w. now exists [(l, msg)]. Qed.

Lemma logs_only_bind (m : ETL unit) (f : unit → ETL unit) :
  logs_only m → (∀ u, logs_only (f u)) → logs_only (bind m f).
Proof.
  intros Hm Hf w. destruct (Hm w) as [l1 E1].
  destruct (Hf tt (add_logs w l1)) as [l2 E2]. exists (l1 ++ l2)%list.
  now rewrite (run_bind_ok _ _ _ _ _ E1), E2, add_logs_app.
Qed.

Lemma logs_only_when b (m : ETL unit) : logs_only m → logs_only (when b m).
Proof. destruct b; [done|]. intros _. apply logs_only_ret. Qed.

Lemma logs_only_for_each {A} (l : list A) (body : A → ETL unit) :
  (∀ x, logs_only (body x)) → logs_only (for_each l body).
Proof.
  intros H. induction l as [|x l IH]; simpl; [apply logs_only_ret|].
  apply logs_only_bind; [apply H|]. now intros _.
Qed.

Ltac logging :=
  repeat
    match goal with
    | |- logs_only (bind _ _) => apply logs_only_bind; [|intros ?]
    | |- logs_only (ret _) => apply logs_only_ret
    | |- logs_only (logger _ _) => apply logs_only_logger
    | |- logs_only (when _ _) => apply logs_only_when
    | |- logs_only (for_each _ _) => apply logs_only_for_each; intros ?
    | |- logs_only (let '(_, _) := ?x in _) => destruct x
    end.

Lemma logs_only_validation_report r title : logs_only (log_validation_report r title).
Proof. unfold log_validation_report, info, warning, error. logging. Qed.

Lemma logs_only_quality_stats s : logs_only (log_quality_stats s).
Proof. unfold log_quality_stats, info. logging. Qed.

(** ** Statements of a run, one at a time *)

Lemma run_bind_logger {B} l msg (f : unit → ETL B) w :
  bind (logger l msg) f w = f tt (add_logs w [(l, msg)]).
Proof. reflexivity. Qed.

Lemma run_bind_logs {B} (m : ETL unit) (f : unit → ETL B) w :
  logs_only m → ∃ l, bind m f w = f tt (add_logs w l).
Proof.
  intros H. destruct (H w) as [l E]. exists l. now rewrite (run_bind_ok _ _ _ _ _ E).
Qed.

Lemma run_bind_extract {B} (f : DataFrame → ETL B) w :
  bind extract_all_vehicles f w = f (raw_store w) w.
Proof. reflexivity. Qed.

Lemma run_bind_call {A B} (m : DF A) df a df' (f : A * DataFrame → ETL B) w :
  m df = (Ok a, df') → bind (call m df) f w = f (a, df') w.
Proof. intros E. unfold bind, call. now rewrite E. Qed.

Lemma run_bind_on_store {A B} (m : St CleanDataLoader.store A) a st
    (f : A → ETL B) w :
  m (clean_store w) = (Ok a, st) → bind (on_store m) f w = f a (set_store w st).
Proof. intros E. unfold bind, on_store. now rewrite E. Qed.

(** ** The log only grows *)

Lemma extends_add_logs l0 w l : extends l0 w → extends l0 (add_logs w l).
Proof. intros [l' E]. exists (l' ++ l)%list. simpl. now rewrite E, app_assoc. Qed.

Lemma stable_logger l0 l msg : stable (extends l0) (logger l msg).
Proof. intros w r w' H [= _ <-]. now apply extends_add_logs. Qed.

Lemma stable_logs_only l0 (m : ETL unit) : logs_only m → stable (extends l0) m.
Proof.
  intros Hm w r w' H E. destruct (Hm w) as [l E']. rewrite E' in E.
  injection E as _ <-. now apply extends_add_logs.
Qed.

Lemma stable_call l0 {A} (m : DF A) df : stable (extends l0) (call m df).
Proof.
  intros w r w' H. unfold call. destruct (m df) as [[a|e] d]; now intros [= _ <-].
Qed.

Lemma stable_on_store l0 {A} (m : St CleanDataLoader.store A) :
  stable (extends l0) (on_store m).
Proof.
  intros w r w' H. unfold on_store. destruct (m (clean_store w)) as [res st].
  now intros [= _ <-].
Qed.

Lemma stable_try_reraise P {A} (body : ETL A) (handler : exn → ETL unit) :
  stable P body → (∀ e, stable P (handler e)) → stable P (try_reraise body handler).
Proof.
  intros Hb Hh w r w' H. unfold try_reraise.
  destruct (body w) as [[a|e] w1] eqn:E.
  - intros [= _ <-]. exact (Hb _ _ _ H E).
  - destruct (handler e w1) as [r2 w2] eqn:E2. intros [= _ <-].
    exact (Hh e _ _ _ (Hb _ _ _ H E) E2).
Qed.

Lemma run_try_reraise {A} (body : ETL A) (handler : exn → ETL unit) w res w1 :
  body w = (res, w1) →
  try_reraise body handler w
  = match res with
    | Ok a => (Ok a, w1)
    | Raise e => (Raise e, snd (handler e w1))
    end.
Proof.
  intros E. unfold try_reraise. rewrite E. destruct res as [a|e]; [done|].
  now destruct (handler e w1).
Qed.

(** ** The quality statistics of a cleaned raw batch *)

Lemma run_bind_sql_column {B} k c t (f : column → St CleanDataLoader.store B) :
  columns t !! k = Some c →
  bind (CleanDataLoader.sql_column k) f (Some t) = f c (Some t).
Proof. intros H. unfold bind, CleanDataLoader.sql_column. now rewrite H. Qed.

Lemma stats_total t :
  kinds t = clean_kinds →
  ∃ stats, CleanDataLoader.get_data_quality_stats (Some t) = (Ok stats, Some t).
Proof.
  intros K.
  assert (Hcol : ∀ k, is_Some (clean_kinds !! k) → ∃ c, columns t !! k = Some c).
  { intros k [K' Hk]. rewrite <- K in Hk. exact (kinds_some _ _ _ Hk). }
  destruct (Hcol "model") as [c1 H1]; [vm_compute; eauto|].
  destruct (Hcol "year") as [c2 H2]; [vm_compute; eauto|].
  destruct (Hcol "mileage") as [c3 H3]; [vm_compute; eauto|].
  destruct (Hcol "fuel_type") as [c4 H4]; [vm_compute; eauto|].
  destruct (Hcol "engine_cc") as [c5 H5]; [vm_compute; eauto|].
  destruct (Hcol "price_flag") as [c6 H6]; [vm_compute; eauto|].
  destruct (Hcol "brand") as [c7 H7]; [vm_compute; eauto|].
  unfold CleanDataLoader.get_data_quality_stats.
  change (bind CleanDataLoader.sql_count ?f (Some t)) with (f (nrows t) (Some t)).
  cbv beta.
  rewrite (run_bind_sql_column _ _ _ _ H1), (run_bind_sql_column _ _ _ _ H2),
    (run_bind_sql_column _ _ _ _ H3), (run_bind_sql_column _ _ _ _ H4),
    (run_bind_sql_column _ _ _ _ H5), (run_bind_sql_column _ _ _ _ H6),
    (run_bind_sql_column _ _ _ _ H7).
  eauto.
Qed.

Lemma numeric_rules_of_kinds df K :
  kinds df = K →
  (∀ k, k ∈ map fst DataValidator.validation_rules →
        K !! k = Some KNum ∨ K !! k = None) →
  numeric_rules df.
Proof. intros <- H k Hk. apply kinds_numeric_column, H, Hk. Qed.

Lemma rules_numeric_in (K : gmap string kind) :
  forallb (λ k, match K !! k with Some KNum | None => true | _ => false end)
          (map fst DataValidator.validation_rules) = true →
  ∀ k, k ∈ map fst DataValidator.validation_rules →
       K !! k = Some KNum ∨ K !! k = None.
Proof.
  intros H k Hk. rewrite forallb_forall in H.
  specialize (H k (proj1 (list_elem_of_In _ _) Hk)).
  destruct (K !! k) as [[]|]; auto; discriminate.
Qed.
End Pipeline.

(** The stages of a run keep the log they found and add to it. *)
Ltac log_grows :=
  unfold VehicleETLPipeline.info;
  repeat
    match goal with
    | |- stable _ (bind _ _) => apply stable_bind; [|intros ?]
    | |- stable _ (ret _) => apply stable_ret
    | |- stable _ (lift _) => apply stable_lift
    | |- stable _ (VehicleETLPipeline.logger _ _) => apply stable_logger
    | |- stable _ (VehicleETLPipeline.call _ _) => apply stable_call
    | |- stable _ (VehicleETLPipeline.on_store _) => apply stable_on_store
    | |- stable _ (VehicleETLPipeline.log_validation_report _ _) =>
        apply stable_logs_only, logs_only_validation_report
    | |- stable _ (VehicleETLPipeline.log_quality_stats _) =>
        apply stable_logs_only, logs_only_quality_stats
    | |- stable _ (let '(_, _) := ?x in _) => destruct x
    end.

Section FullRun.
Import VehicleETLPipeline.


(** Whatever the report says, the run opens the Clean stage. *)
Lemma run_reaches_clean_stage y w report raw' :
  empty (raw_store w) = false →
  DataValidator.validate_data (raw_store w) = (Ok report, raw') →
  ∃ before after,
    log (snd (run_full_pipeline y w))
    = (log w ++ before ++ [cleaning_line] ++ after)%list.
Proof.
  intros Hne Hval. unfold run_full_pipeline.
  match goal with
  | |- context [try_reraise ?b ?h w] =>
      destruct (b w) as [res w1] eqn:E; rewrite (run_try_reraise b h w res w1 E)
  end.
  unfold info in E.
  rewrite !run_bind_logger, run_bind_extract, run_bind_logger in E.
  cbn [raw_store add_logs] in E. rewrite Hne in E.
  rewrite run_bind_logger, (run_bind_call _ _ _ _ _ _ Hval) in E.
  cbv beta iota in E.
  match type of E with
  | bind (log_validation_report ?r ?t) ?f ?w0 = _ =>
      destruct (run_bind_logs (log_validation_report r t) f w0
                  (logs_only_validation_report _ _)) as [l El];
      rewrite El in E; clear El
  end.
  rewrite run_bind_logger, !add_logs_app in E.
  match type of E with
  | ?r ?w3 = _ =>
      assert (Hgrow : extends (log w3) w1)
        by (apply (stable_run (extends (log w3)) r w3 res w1);
            [log_grows | exists nil; symmetry; apply app_nil_r | exact E])
  end.
  destruct Hgrow as [after Hafter]. cbn [log add_logs] in Hafter.
  set (opening := [ (INFO, [Text "Starting ETL pipeline..."]);
                    (INFO, [Text "Extracting raw data..."]);
                    (INFO, [Text ("Extracted " ++ pretty (nrows (raw_store w))
                                    ++ " records")]);
                    (INFO, [Text "Validating raw data..."]) ]).
  destruct res as [a|e]; cbn [snd].
  - exists (opening ++ l)%list, after.
    rewrite Hafter, <- !app_assoc. reflexivity.
  - exists (opening ++ l)%list,
      (after ++ [(ERROR, [Text ("ETL pipeline failed: " ++ exn_text e)])])%list.
    unfold error, logger. cbn [snd log add_logs].
    rewrite Hafter, <- !app_assoc. reflexivity.
Qed.

(** A batch with the schema of the raw store runs to completion. *)
Lemma raw_batch_completes y w :
  empty (raw_store w) = false → raw_schema (raw_store w) →
  ∃ stats cleaned w',
    run_full_pipeline y w = (Ok (Some stats), w')
    ∧ DataCleaner.clean_data y (raw_store w) = Ok cleaned
    ∧ clean_store w' = Some cleaned.
Proof.
  intros Hne Hraw. unfold run_full_pipeline.
  destruct (validate_data_total (raw_store w)) as [report Hval].
  { apply (numeric_rules_of_kinds _ _ Hraw), rules_numeric_in. reflexivity. }
  destruct (clean_data_raw y _ Hraw) as (cleaned & Hclean & Hn & Hk).
  destruct (validate_data_total cleaned) as [report2 Hval2].
  { apply (numeric_rules_of_kinds _ _ Hk), rules_numeric_in. reflexivity. }
  destruct (stats_total cleaned Hk) as [stats Hstats].
  exists stats, cleaned.
  match goal with
  | |- context [try_reraise ?b ?h w] =>
      destruct (b w) as [res w1] eqn:E; rewrite (run_try_reraise b h w res w1 E)
  end.
  unfold info in E.
  rewrite !run_bind_logger, run_bind_extract, run_bind_logger in E.
  cbn [raw_store add_logs] in E. rewrite Hne in E.
  rewrite run_bind_logger, (run_bind_call _ _ _ _ _ _ Hval) in E.
  cbv beta iota in E.
  match type of E with
  | bind (log_validation_report ?r ?t) ?f ?w0 = _ =>
      destruct (run_bind_logs (log_validation_report r t) f w0
                  (logs_only_validation_report _ _)) as [l El];
      rewrite El in E; clear El
  end.
  rewrite run_bind_logger, Hclean, run_bind_lift_ok, !run_bind_logger in E.
  rewrite (run_bind_call _ _ _ _ _ _ Hval2) in E. cbv beta iota in E.
  match type of E with
  | bind (log_validation_report ?r ?t) ?f ?w0 = _ =>
      destruct (run_bind_logs (log_validation_report r t) f w0
                  (logs_only_validation_report _ _)) as [l2 El];
      rewrite El in E; clear El
  end.
  rewrite run_bind_logger in E.
  rewrite (run_bind_on_store _ tt (Some cleaned)) in E by reflexivity.
  rewrite run_bind_logger in E.
  rewrite (run_bind_on_store _ stats (Some cleaned)) in E by exact Hstats.
  match type of E with
  | bind (log_quality_stats ?s) ?f ?w0 = _ =>
      destruct (run_bind_logs (log_quality_stats s) f w0
                  (logs_only_quality_stats _)) as [l3 El];
      rewrite El in E; clear El
  end.
  rewrite run_bind_logger in E. injection E as <- <-.
  eexists. split; [reflexivity|]. split; [exact Hclean|reflexivity].
Qed.


End FullRun.

(** * The extractors and the cleaner on concrete inputs *)

Section Evaluations.
Import VehicleParser.

Example title_after_hyphen : PyStr.title "mercedes-benz" = "Mercedes-Benz".
Proof. reflexivity. Qed.

Example strip_both_ends : PyStr.strip "  land rover  " = "land rover".
Proof. reflexivity. Qed.

Example replace_leaves_a_space : PyStr.replace "BENZ " EmptyString "BENZ  C200" = " C200".
Proof. reflexivity. Qed.

Example price_first_match :
  extract_price_usd "US$ 20,000 o $ 19,500" = Ok (Some 20000%Z).
Proof. reflexivity. Qed.

Example year_first_match : extract_year "Toyota 2015, motor 2018" = Ok (Some 2015%Z).
Proof. reflexivity. Qed.

Example year_needs_boundaries : extract_year "ref 120155" = Ok None.
Proof. reflexivity. Qed.

Example mileage_after_separator : extract_mileage "85,000 Km" = Ok (Some 0%Z).
Proof. reflexivity. Qed.

Example engine_cc_form : extract_engine_cc "Motor 1800 cc" = Ok (Some 1800%Z).
Proof. reflexivity. Qed.

Example engine_litre_form : extract_engine_cc "2 litros" = Ok (Some 2000%Z).
Proof. reflexivity. Qed.

Example phones_distinct :
  extract_phone_numbers "tel 8888-1234 o 88881234, +506 88881234, 8888-1234"
  = ["8888-1234"; "88881234"; "+506 88881234"].
Proof. reflexivity. Qed.

Example phones_none : extract_phone_numbers "sin telefono" = [].
Proof. reflexivity. Qed.

(** C5: the kilometre form is multiplied by 1000 like the "mil" form, so
    "85000 km" gives 85000000, not 85000. *)
Theorem extract_mileage_multiplies_km_form :
  extract_mileage "85000 km" = Ok (Some 85000000%Z)
  ∧ extract_mileage "85 mil" = Ok (Some 85000%Z)
  ∧ extract_mileage "buen estado" = Ok None.
Proof. repeat split; reflexivity. Qed.

(** C8: a currency sign followed by a full stop matches the price
    pattern with a token that has no digit, and [int] raises on it. *)
Theorem extract_price_raises_on_bare_separator :
  extract_price_usd "precio en $. llame" = Raise ValueError
  ∧ extract_price_colones (String colon_sign ".") = Raise ValueError
  ∧ extract_price_usd "sin precio" = Ok None.
Proof. repeat split; reflexivity. Qed.

Lemma distinct_by_cell (d d' : DataFrame) k i (a b : cell) :
  cell_at d k i = Some a → cell_at d' k i = Some b → a ≠ b → d' ≠ d.
Proof. intros Ha Hb Hne ->. congruence. Qed.

(** C4: cleaning the cleaned batch again changes it: the label
    "Gasoline" the first pass wrote for "Gasolina" is lower-cased by the
    second pass. *)
Theorem recleaning_changes_fuel_type :
  ∃ once twice,
    DataCleaner.clean_data 2025 (raw_batch 1 one_listing) = Ok once
    ∧ DataCleaner.clean_data 2025 once = Ok twice
    ∧ cell_at once "fuel_type" 0 = Some (CStr "Gasoline")
    ∧ cell_at twice "fuel_type" 0 = Some (CStr "gasoline")
    ∧ twice ≠ once.
Proof.
  do 2 eexists. split; [vm_compute; reflexivity|].
  split; [vm_compute; reflexivity|].
  split; [vm_compute; reflexivity|].
  split; [vm_compute; reflexivity|].
  eapply (distinct_by_cell _ _ "fuel_type" 0 (CStr "Gasoline") (CStr "gasoline"));
    [vm_compute; reflexivity..|discriminate].
Qed.
End Evaluations.
